(** * expert-memory: identity, access control and audited account

    A shallow embedding of the three classes of the repository

      - [UserIdentity]  (src/user_identity.py)
      - [AccountAccess] (src/account_access.py)
      - [SecureUser]    (src/secure_user.py)

    followed by the properties of their behaviour.

    Conventions of the embedding.

    - A Python [str] is a [string] whose characters are the code points
      below 256 (the type [ascii] read as Latin-1); text with other code
      points is outside the embedding.  [len], [str.replace],
      [str.startswith] and [str.isdigit] are those of Python on such text:
      [str.isdigit] recognises [0-9] and the superscripts one, two and
      three.  [str.upper] is modelled on ASCII text, where it maps [a-z]
      to [A-Z]; a property that compares its result with anything but the
      code's own use of it is stated for ASCII names, [Py.is_ascii].
    - Every exception of the source is a [ValueError]; the three error kinds
      of the specification are told apart by the raising site and recorded in
      the field [kind].
    - A method of an object is a function from the object to the object
      after the call, paired with what the call returned or raised.
    - [datetime.now().strftime(...)] is an input: every operation that reads
      the clock takes the formatted reading [now] as an argument.
    - [print] writes to the console only; the methods are modelled without
      it, and what they print is given apart, in [Console].
    - Mutable objects that are shared (the dictionaries held by the audit
      log) are modelled a second time with an explicit store, in [Aliased]. *)

From Stdlib Require Import String Ascii List Bool Arith Lia.
From stdpp Require Import base option list gmap.
Import ListNotations.
Open Scope string_scope.

(** ** Python primitives used by the source *)

Module Py.

Inductive ErrorKind := ValidationError | InvalidStateTransition | PermissionDenied.

(** [ValueError(message)], tagged with the kind of its raising site. *)
Record ValueError := { kind : ErrorKind; message : string }.

(** Outcome of a call: a returned value or a raised exception. *)
Inductive Exc (A : Type) : Type :=
| Return (a : A)
| Raise (e : ValueError).
Arguments Return {A} a.
Arguments Raise {A} e.

Definition raised {A} (r : Exc A) : bool :=
  match r with Raise _ => true | Return _ => false end.

(** [str(e)] for an exception. *)
Definition str_exc (e : ValueError) : string := message e.

(** [str(b)] for a boolean, as an f-string renders it. *)
Definition str_bool (b : bool) : string := if b then "True" else "False".

(** [str(x)] for a value that may be [None]. *)
Definition str_opt (o : option string) : string :=
  match o with Some s => s | None => "None" end.

Definition is_lower (c : ascii) : bool :=
  ((97 <=? nat_of_ascii c) && (nat_of_ascii c <=? 122))%nat.

Definition is_upper (c : ascii) : bool :=
  ((65 <=? nat_of_ascii c) && (nat_of_ascii c <=? 90))%nat.

Definition is_digit (c : ascii) : bool :=
  ((48 <=? nat_of_ascii c) && (nat_of_ascii c <=? 57))%nat.

(** The characters [str.isdigit] accepts among the code points below 256:
    the decimal digits and the superscripts two (178), three (179) and
    one (185). *)
Definition is_digit_char (c : ascii) : bool :=
  is_digit c
  || (nat_of_ascii c =? 178)%nat || (nat_of_ascii c =? 179)%nat
  || (nat_of_ascii c =? 185)%nat.

(** A code point below 128. *)
Definition is_ascii_char (c : ascii) : bool := (nat_of_ascii c <? 128)%nat.

Definition is_alpha (c : ascii) : bool := is_lower c || is_upper c.

Definition upper_char (c : ascii) : ascii :=
  if is_lower c then ascii_of_nat (nat_of_ascii c - 32) else c.

(** [s.upper()] *)
Fixpoint upper (s : string) : string :=
  match s with
  | EmptyString => EmptyString
  | String c s' => String (upper_char c) (upper s')
  end.

(** [s.replace(c, '')] for a one-character [c]. *)
Fixpoint replace_char (c : ascii) (s : string) : string :=
  match s with
  | EmptyString => EmptyString
  | String a s' =>
      if Ascii.eqb a c then replace_char c s' else String a (replace_char c s')
  end.

(** [s.startswith(c)] for a one-character [c]. *)
Definition startswith_char (c : ascii) (s : string) : bool :=
  match s with
  | String a _ => Ascii.eqb a c
  | EmptyString => false
  end.

(** [s[1:]] *)
Definition slice_from_1 (s : string) : string :=
  match s with
  | String _ s' => s'
  | EmptyString => EmptyString
  end.

Fixpoint all_chars (p : ascii -> bool) (s : string) : bool :=
  match s with
  | EmptyString => true
  | String c s' => p c && all_chars p s'
  end.

(** [s.isdigit()]: at least one character, and all of them digits in the
    sense of Unicode. *)
Definition isdigit (s : string) : bool :=
  match s with
  | EmptyString => false
  | String _ _ => all_chars is_digit_char s
  end.

(** [s.isascii()]: every character is a code point below 128. *)
Definition is_ascii (s : string) : bool := all_chars is_ascii_char s.

(** [x in l] for a list (or set) of strings. *)
Fixpoint contains (x : string) (l : list string) : bool :=
  match l with
  | [] => false
  | y :: l' => String.eqb y x || contains x l'
  end.

(** [l.remove(x)]: drops the first element equal to [x]. *)
Fixpoint list_remove (x : string) (l : list string) : list string :=
  match l with
  | [] => []
  | y :: l' => if String.eqb y x then l' else y :: list_remove x l'
  end.

End Py.

(** ** Regular expressions, as far as [re.match] is used by the source *)

Module Re.

Inductive regex :=
| Void
| Eps
| Class (p : ascii -> bool)
| Cat (r1 r2 : regex)
| Alt (r1 r2 : regex)
| Star (r : regex).

(** A literal character, [r+] and [r{2,}]. *)
Definition Lit (c : ascii) : regex := Class (Ascii.eqb c).
Definition Plus (r : regex) : regex := Cat r (Star r).
Definition AtLeast2 (r : regex) : regex := Cat r (Cat r (Star r)).

(** The language of an expression. *)
Inductive Matches : regex -> list ascii -> Prop :=
| MEps : Matches Eps []
| MClass p c : p c = true -> Matches (Class p) [c]
| MCat r1 r2 s1 s2 :
    Matches r1 s1 -> Matches r2 s2 -> Matches (Cat r1 r2) (s1 ++ s2)
| MAltL r1 r2 s : Matches r1 s -> Matches (Alt r1 r2) s
| MAltR r1 r2 s : Matches r2 s -> Matches (Alt r1 r2) s
| MStarNil r : Matches (Star r) []
| MStarApp r s1 s2 :
    Matches r s1 -> Matches (Star r) s2 -> Matches (Star r) (s1 ++ s2).

Fixpoint nullable (r : regex) : bool :=
  match r with
  | Void => false
  | Eps => true
  | Class _ => false
  | Cat r1 r2 => nullable r1 && nullable r2
  | Alt r1 r2 => nullable r1 || nullable r2
  | Star _ => true
  end.

Fixpoint deriv (c : ascii) (r : regex) : regex :=
  match r with
  | Void => Void
  | Eps => Void
  | Class p => if p c then Eps else Void
  | Cat r1 r2 =>
      if nullable r1 then Alt (Cat (deriv c r1) r2) (deriv c r2)
      else Cat (deriv c r1) r2
  | Alt r1 r2 => Alt (deriv c r1) (deriv c r2)
  | Star r1 => Cat (deriv c r1) (Star r1)
  end.

(** Does the whole of [s] belong to the language of [r]? *)
Fixpoint full_match (r : regex) (s : list ascii) : bool :=
  match s with
  | [] => nullable r
  | c :: s' => full_match (deriv c r) s'
  end.

Definition LF : ascii := "010"%char.

(** The text before a final newline, when there is one. *)
Fixpoint before_final_newline (s : list ascii) : option (list ascii) :=
  match s with
  | [] => None
  | [c] => if Ascii.eqb c LF then Some [] else None
  | c :: s' => option_map (cons c) (before_final_newline s')
  end.

(** [re.match('^' body '$', s)] without flags, as a truth value.  [^] holds
    at the start of the text only; [$] holds at the end of the text and also
    just before a newline that is the last character of the text. *)
Definition match_caret_dollar (body : regex) (s : string) : bool :=
  let cs := list_ascii_of_string s in
  full_match body cs
  || match before_final_newline cs with
     | Some cs' => full_match body cs'
     | None => false
     end.

End Re.

(** ** src/user_identity.py *)

Module UserIdentity.
Import Py.

(** The three values [__verification_status] takes:
    ["UNVERIFIED"], ["PENDING"] and ["VERIFIED"]. *)
Inductive Status := UNVERIFIED | PENDING | VERIFIED.

Definition status_eqb (a b : Status) : bool :=
  match a, b with
  | UNVERIFIED, UNVERIFIED | PENDING, PENDING | VERIFIED, VERIFIED => true
  | _, _ => false
  end.

(** A field holds [None] until [__init__] has assigned it. *)
Record t := {
  username : string;
  _email : option string;
  __phone_number : option string;
  __verification_status : Status
}.

Definition with_email (e : option string) (self : t) : t :=
  {| username := username self; _email := e;
     __phone_number := __phone_number self;
     __verification_status := __verification_status self |}.

Definition with_phone_number (p : option string) (self : t) : t :=
  {| username := username self; _email := _email self;
     __phone_number := p;
     __verification_status := __verification_status self |}.

Definition with_verification_status (s : Status) (self : t) : t :=
  {| username := username self; _email := _email self;
     __phone_number := __phone_number self;
     __verification_status := s |}.

Definition is_char (c a : ascii) : bool := Ascii.eqb a c.

(** [[a-zA-Z0-9._%+-]] *)
Definition local_class (a : ascii) : bool :=
  is_alpha a || is_digit a || is_char "." a || is_char "_" a
  || is_char "%" a || is_char "+" a || is_char "-" a.

(** [[a-zA-Z0-9.-]] *)
Definition domain_class (a : ascii) : bool :=
  is_alpha a || is_digit a || is_char "." a || is_char "-" a.

(** [r'^[a-zA-Z0-9._%+-]+@[a-zA-Z0-9.-]+\.[a-zA-Z]{2,}$'], between the
    anchors. *)
Definition email_pattern : Re.regex :=
  Re.Cat (Re.Plus (Re.Class local_class))
    (Re.Cat (Re.Lit "@")
       (Re.Cat (Re.Plus (Re.Class domain_class))
          (Re.Cat (Re.Lit ".") (Re.AtLeast2 (Re.Class is_alpha))))).

Definition __validate_email (email : string) : Exc string :=
  if negb (Re.match_caret_dollar email_pattern email) then
    Raise {| kind := ValidationError;
             message := "Invalid email format: " ++ email |}
  else Return email.

Definition __validate_phone (phone : string) : Exc string :=
  let cleaned :=
    replace_char ")" (replace_char "(" (replace_char "-" (replace_char " " phone))) in
  let invalid :=
    Raise {| kind := ValidationError;
             message := "Invalid phone format: " ++ phone
                        ++ ". Expected format: +X-XXX-XXX-XXXX" |} in
  if startswith_char "+" phone
     && (11 <=? String.length cleaned)%nat && (String.length cleaned <=? 16)%nat
  then
    if isdigit (slice_from_1 cleaned) then Return phone else invalid
  else invalid.

Definition get_email (self : t) : option string := _email self.

Definition set_email (new_email : string) (self : t) : t * Exc unit :=
  match __validate_email new_email with
  | Raise e => (self, Raise e)
  | Return validated_email => (with_email (Some validated_email) self, Return tt)
  end.

Definition get_phone_number (self : t) : option string := __phone_number self.

Definition get_verification_status (self : t) : Status :=
  __verification_status self.

Definition __init__ (username email phone_number : string) : Exc t :=
  let self :=
    {| username := username; _email := None; __phone_number := None;
       __verification_status := UNVERIFIED |} in
  match set_email email self with
  | (_, Raise e) => Raise e
  | (self, Return _) =>
      match __validate_phone phone_number with
      | Raise e => Raise e
      | Return validated => Return (with_phone_number (Some validated) self)
      end
  end.

Definition request_verification (self : t) : t * Exc unit :=
  match __verification_status self with
  | UNVERIFIED => (with_verification_status PENDING self, Return tt)
  | PENDING =>
      (self, Raise {| kind := InvalidStateTransition;
                      message := "Verification already pending. Cannot request again." |})
  | VERIFIED =>
      (self, Raise {| kind := InvalidStateTransition;
                      message := "User already verified. Cannot request verification." |})
  end.

Definition verify (self : t) : t * Exc unit :=
  match __verification_status self with
  | PENDING => (with_verification_status VERIFIED self, Return tt)
  | UNVERIFIED =>
      (self, Raise {| kind := InvalidStateTransition;
                      message := "Cannot verify. User must request verification first." |})
  | VERIFIED =>
      (self, Raise {| kind := InvalidStateTransition;
                      message := "User already verified." |})
  end.

End UserIdentity.

(** ** src/account_access.py *)

Module AccountAccess.
Import Py.

(** The class constant [{"TRANSFER", "WITHDRAW"}]; only membership is asked
    of it. *)
Definition RESTRICTED_PERMISSIONS : list string := ["TRANSFER"; "WITHDRAW"].

Record t := { __permissions : list string }.

Definition __init__ : t := {| __permissions := [] |}.

(** [self.__permissions.copy()]: the strings of the list, as a value. *)
Definition get_permissions (self : t) : list string := __permissions self.

(** [is_verified] is [None] when the caller leaves the argument out; the
    signature then supplies its default, [True]. *)
Definition add_permission (permission : string) (is_verified : option bool)
    (self : t) : t * Exc unit :=
  let is_verified := match is_verified with Some b => b | None => true end in
  let permission := upper permission in
  if contains permission RESTRICTED_PERMISSIONS && negb is_verified then
    (self,
     Raise {| kind := PermissionDenied;
              message := "Cannot grant '" ++ permission ++ "' permission. "
                         ++ "User must be VERIFIED to receive restricted permissions." |})
  else if negb (contains permission (__permissions self)) then
    ({| __permissions := __permissions self ++ [permission] |}, Return tt)
  else (self, Return tt).

Definition remove_permission (permission : string) (self : t) : t * bool :=
  let permission := upper permission in
  if contains permission (__permissions self) then
    ({| __permissions := list_remove permission (__permissions self) |}, true)
  else (self, false).

Definition has_permission (permission : string) (self : t) : bool :=
  contains (upper permission) (__permissions self).

End AccountAccess.

(** ** src/secure_user.py *)

Module SecureUser.
Import Py.

(** One audit entry: [{"timestamp": ..., "action": ..., "details": ...}]. *)
Record LogEntry := { timestamp : string; action : string; details : string }.

Record t := {
  _identity : UserIdentity.t;
  __access : AccountAccess.t;
  __audit_log : list LogEntry
}.

(** What [identity_status] returns: a dictionary with these five keys. *)
Record IdentityStatus := {
  st_username : string;
  st_email : option string;
  st_phone : option string;
  st_verification_status : UserIdentity.Status;
  st_permissions : list string
}.

(** [now] is the clock reading; every caller in the source passes
    [details]. *)
Definition __log_action (now action details : string) (self : t) : t :=
  let log_entry :=
    {| timestamp := now; action := action; details := details |} in
  {| _identity := _identity self; __access := __access self;
     __audit_log := __audit_log self ++ [log_entry] |}.

Definition __init__ (now username email phone_number : string) : Exc t :=
  match UserIdentity.__init__ username email phone_number with
  | Raise e => Raise e
  | Return identity =>
      Return
        (__log_action now "SecureUser created" ("Username: " ++ username)
           {| _identity := identity;
              __access := AccountAccess.__init__;
              __audit_log := [] |})
  end.

Definition grant_permission (now permission : string) (self : t) : t * Exc unit :=
  let is_verified :=
    UserIdentity.status_eqb
      (UserIdentity.get_verification_status (_identity self))
      UserIdentity.VERIFIED in
  match AccountAccess.add_permission permission (Some is_verified) (__access self) with
  | (access, Return _) =>
      (__log_action now "Permission granted"
         ("Permission: " ++ permission ++ ", Verified: " ++ str_bool is_verified)
         {| _identity := _identity self; __access := access;
            __audit_log := __audit_log self |},
       Return tt)
  | (access, Raise e) =>
      (__log_action now "Permission grant FAILED"
         ("Permission: " ++ permission ++ ", Reason: " ++ str_exc e)
         {| _identity := _identity self; __access := access;
            __audit_log := __audit_log self |},
       Raise e)
  end.

Definition revoke_permission (now permission : string) (self : t) : t * Exc unit :=
  let '(access, removed) :=
    AccountAccess.remove_permission permission (__access self) in
  let action := if removed then "revoked" else "revoke failed (not found)" in
  (__log_action now ("Permission " ++ action) ("Permission: " ++ permission)
     {| _identity := _identity self; __access := access;
        __audit_log := __audit_log self |},
   Return tt).

Definition identity_status (self : t) : IdentityStatus :=
  {| st_username := UserIdentity.username (_identity self);
     st_email := UserIdentity.get_email (_identity self);
     st_phone := UserIdentity.get_phone_number (_identity self);
     st_verification_status :=
       UserIdentity.get_verification_status (_identity self);
     st_permissions := AccountAccess.get_permissions (__access self) |}.

Definition request_verification (now : string) (self : t) : t * Exc unit :=
  match UserIdentity.request_verification (_identity self) with
  | (identity, Return _) =>
      (__log_action now "Verification requested" "Status: PENDING"
         {| _identity := identity; __access := __access self;
            __audit_log := __audit_log self |},
       Return tt)
  | (identity, Raise e) =>
      (__log_action now "Verification request FAILED" (str_exc e)
         {| _identity := identity; __access := __access self;
            __audit_log := __audit_log self |},
       Raise e)
  end.

Definition verify_identity (now : string) (self : t) : t * Exc unit :=
  match UserIdentity.verify (_identity self) with
  | (identity, Return _) =>
      (__log_action now "Identity verified" "Status: VERIFIED"
         {| _identity := identity; __access := __access self;
            __audit_log := __audit_log self |},
       Return tt)
  | (identity, Raise e) =>
      (__log_action now "Verification FAILED" (str_exc e)
         {| _identity := identity; __access := __access self;
            __audit_log := __audit_log self |},
       Raise e)
  end.

Definition update_email (now new_email : string) (self : t) : t * Exc unit :=
  let old_email := UserIdentity.get_email (_identity self) in
  match UserIdentity.set_email new_email (_identity self) with
  | (identity, Return _) =>
      (__log_action now "Email updated" (str_opt old_email ++ " -> " ++ new_email)
         {| _identity := identity; __access := __access self;
            __audit_log := __audit_log self |},
       Return tt)
  | (identity, Raise e) =>
      (__log_action now "Email update FAILED" (str_exc e)
         {| _identity := identity; __access := __access self;
            __audit_log := __audit_log self |},
       Raise e)
  end.

(** [self.__audit_log.copy()], as a value; the objects behind it are the
    subject of [Aliased]. *)
Definition get_audit_log (self : t) : list LogEntry := __audit_log self.

(** The five operations that change an account, and a call of one of them
    at clock reading [now]. *)
Inductive Op :=
| GrantPermission (permission : string)
| RevokePermission (permission : string)
| RequestVerification
| VerifyIdentity
| UpdateEmail (new_email : string).

Definition call (now : string) (op : Op) (self : t) : t * Exc unit :=
  match op with
  | GrantPermission p => grant_permission now p self
  | RevokePermission p => revoke_permission now p self
  | RequestVerification => request_verification now self
  | VerifyIdentity => verify_identity now self
  | UpdateEmail e => update_email now e self
  end.

(** A caller that catches every exception and goes on, as src/main.py
    does: the account after a sequence of calls. *)
Fixpoint call_all (calls : list (string * Op)) (self : t) : t :=
  match calls with
  | [] => self
  | (now, op) :: rest => call_all rest (fst (call now op self))
  end.

(** Accounts that exist: built by the constructor and used through the
    operations. *)
Inductive reachable : t -> Prop :=
| reachable_init now username email phone_number self :
    __init__ now username email phone_number = Return self ->
    reachable self
| reachable_call now op self :
    reachable self -> reachable (fst (call now op self)).

(** The audit log a caller can read after asking for an account: a failed
    construction leaves no object, hence no log. *)
Definition audit_log_after_init (r : Exc t) : list LogEntry :=
  match r with
  | Return self => get_audit_log self
  | Raise _ => []
  end.

End SecureUser.

(** ** Objects and references

    The lists and dictionaries of the source are mutable objects reached
    through references.  This module keeps them in a store, so that two
    references to one object can be told from two equal objects.  An
    operation applied to an object of the wrong kind leaves the store as it
    is; the source never does so. *)

Module Aliased.
Import Py.

Abbreviation loc := nat.

Inductive value :=
| VNone
| VStr (s : string)
| VRef (l : loc).

(** A dictionary keeps its keys in insertion order. *)
Inductive obj :=
| PyList (items : list value)
| PyDict (fields : list (string * value)).

(** The object at index [l] is the one reference [l] points to. *)
Abbreviation store := (list obj).

Definition alloc (o : obj) (σ : store) : store * loc :=
  ((σ ++ [o])%list, length σ).

Definition list_items (l : loc) (σ : store) : list value :=
  match σ !! l with
  | Some (PyList items) => items
  | _ => []
  end.

Definition dict_fields (l : loc) (σ : store) : list (string * value) :=
  match σ !! l with
  | Some (PyDict fields) => fields
  | _ => []
  end.

(** [l.copy()]: a new list object holding the same items. *)
Definition list_copy (l : loc) (σ : store) : store * loc :=
  alloc (PyList (list_items l σ)) σ.

(** [l.append(v)] *)
Definition list_append (l : loc) (v : value) (σ : store) : store :=
  match σ !! l with
  | Some (PyList items) => <[l := PyList (items ++ [v])]> σ
  | _ => σ
  end.

(** [l[i]] *)
Definition list_getitem (l : loc) (i : nat) (σ : store) : option value :=
  list_items l σ !! i.

Fixpoint assoc_set (k : string) (v : value) (fields : list (string * value))
    : list (string * value) :=
  match fields with
  | [] => [(k, v)]
  | (k', v') :: rest =>
      if String.eqb k' k then (k', v) :: rest else (k', v') :: assoc_set k v rest
  end.

Fixpoint assoc_get (k : string) (fields : list (string * value)) : option value :=
  match fields with
  | [] => None
  | (k', v') :: rest => if String.eqb k' k then Some v' else assoc_get k rest
  end.

(** [d[k] = v] *)
Definition dict_setitem (l : loc) (k : string) (v : value) (σ : store) : store :=
  match σ !! l with
  | Some (PyDict fields) => <[l := PyDict (assoc_set k v fields)]> σ
  | _ => σ
  end.

(** [d[k]] *)
Definition dict_getitem (l : loc) (k : string) (σ : store) : option value :=
  assoc_get k (dict_fields l σ).

(** An account: the identity holds immutable values only; the permission
    list of its [AccountAccess] and its audit log are list objects. *)
Record t := {
  _identity : UserIdentity.t;
  __permissions : loc;
  __audit_log : loc
}.

Definition __log_action (now action details : string) (self : t) (σ : store)
    : store :=
  let '(σ1, log_entry) :=
    alloc (PyDict [("timestamp", VStr now); ("action", VStr action);
                   ("details", VStr details)]) σ in
  list_append (__audit_log self) (VRef log_entry) σ1.

Definition __init__ (now username email phone_number : string) (σ : store)
    : Exc (store * t) :=
  match UserIdentity.__init__ username email phone_number with
  | Raise e => Raise e
  | Return identity =>
      let '(σ1, permissions) := alloc (PyList []) σ in
      let '(σ2, audit_log) := alloc (PyList []) σ1 in
      let self := {| _identity := identity; __permissions := permissions;
                     __audit_log := audit_log |} in
      Return (__log_action now "SecureUser created" ("Username: " ++ username)
                self σ2, self)
  end.

(** [AccountAccess.get_permissions]: [self.__permissions.copy()] *)
Definition get_permissions (self : t) (σ : store) : store * loc :=
  list_copy (__permissions self) σ.

(** [SecureUser.get_audit_log]: [self.__audit_log.copy()] *)
Definition get_audit_log (self : t) (σ : store) : store * loc :=
  list_copy (__audit_log self) σ.

Definition str_status (s : UserIdentity.Status) : string :=
  match s with
  | UserIdentity.UNVERIFIED => "UNVERIFIED"
  | UserIdentity.PENDING => "PENDING"
  | UserIdentity.VERIFIED => "VERIFIED"
  end.

Definition value_of (o : option string) : value :=
  match o with Some s => VStr s | None => VNone end.

(** [SecureUser.identity_status]: a new dictionary whose ["permissions"] is
    a new list. *)
Definition identity_status (self : t) (σ : store) : store * loc :=
  let '(σ1, permissions) := get_permissions self σ in
  alloc
    (PyDict
       [("username", VStr (UserIdentity.username (_identity self)));
        ("email", value_of (UserIdentity.get_email (_identity self)));
        ("phone", value_of (UserIdentity.get_phone_number (_identity self)));
        ("verification_status",
         VStr (str_status (UserIdentity.get_verification_status (_identity self))));
        ("permissions", VRef permissions)])
    σ1.

(** Reading an audit entry back as a value. *)
Definition read_entry (σ : store) (v : value) : option SecureUser.LogEntry :=
  match v with
  | VRef l =>
      match dict_getitem l "timestamp" σ, dict_getitem l "action" σ,
            dict_getitem l "details" σ with
      | Some (VStr ts), Some (VStr a), Some (VStr d) =>
          Some {| SecureUser.timestamp := ts; SecureUser.action := a;
                  SecureUser.details := d |}
      | _, _, _ => None
      end
  | _ => None
  end.

(** The entries of the list object [l], read back. *)
Definition read_log (l : loc) (σ : store) : list (option SecureUser.LogEntry) :=
  map (read_entry σ) (list_items l σ).

(** What a later [get_audit_log] shows. *)
Definition audit_log_view (self : t) (σ : store)
    : list (option SecureUser.LogEntry) :=
  let '(σ1, log) := get_audit_log self σ in read_log log σ1.

(** What a later [get_permissions] shows. *)
Definition permissions_view (self : t) (σ : store) : list value :=
  let '(σ1, permissions) := get_permissions self σ in list_items permissions σ1.

(** A caller that reads the log and overwrites a field of its first entry:
    [log = user.get_audit_log(); log[0][k] = v]. *)
Definition tamper_first_entry (k v : string) (self : t) (σ : store) : store :=
  let '(σ1, log) := get_audit_log self σ in
  match list_getitem log 0 σ1 with
  | Some (VRef entry) => dict_setitem entry k (VStr v) σ1
  | _ => σ1
  end.

End Aliased.

(** ** Console output

    What the methods of the three classes print.  Each [print] adds one line
    to the console; a line is given without its final newline.  The clock
    reading [now] is the one [__log_state_change] takes; [__log_action]
    prints nothing. *)

Module Console.
Import Py.

(** [UserIdentity.__log_state_change(message)] *)
Definition __log_state_change (now message : string) : list string :=
  ["[" ++ now ++ "] UserIdentity LOG: " ++ message].

(** [UserIdentity.set_email]: a line only when an earlier email is replaced. *)
Definition set_email (now new_email : string) (self : UserIdentity.t)
    : list string :=
  match UserIdentity.__validate_email new_email with
  | Raise _ => []
  | Return validated_email =>
      match UserIdentity._email self with
      | Some old_email =>
          __log_state_change now
            ("Email changed from " ++ old_email ++ " to " ++ validated_email)
      | None => []
      end
  end.

Definition request_verification (now : string) (self : UserIdentity.t)
    : list string :=
  match UserIdentity.__verification_status self with
  | UserIdentity.UNVERIFIED =>
      __log_state_change now "Verification requested: UNVERIFIED -> PENDING"
  | _ => []
  end.

Definition verify (now : string) (self : UserIdentity.t) : list string :=
  match UserIdentity.__verification_status self with
  | UserIdentity.PENDING =>
      __log_state_change now "User verified: PENDING -> VERIFIED"
  | _ => []
  end.

(** [UserIdentity.__init__]: [set_email] on the object whose email is still
    [None]; [__validate_phone] prints nothing. *)
Definition identity_init (now username email : string) : list string :=
  set_email now email
    {| UserIdentity.username := username; UserIdentity._email := None;
       UserIdentity.__phone_number := None;
       UserIdentity.__verification_status := UserIdentity.UNVERIFIED |}.

Definition add_permission (permission : string) (is_verified : option bool)
    (self : AccountAccess.t) : list string :=
  let is_verified := match is_verified with Some b => b | None => true end in
  let permission := upper permission in
  if contains permission AccountAccess.RESTRICTED_PERMISSIONS && negb is_verified
  then []
  else if negb (contains permission (AccountAccess.__permissions self)) then []
  else ["Permission '" ++ permission ++ "' already exists."].

Definition remove_permission (permission : string) (self : AccountAccess.t)
    : list string :=
  let permission := upper permission in
  if contains permission (AccountAccess.__permissions self) then []
  else ["Permission '" ++ permission ++ "' not found."].

(** The operations of [SecureUser] print what their delegate prints. *)
Definition call (now : string) (op : SecureUser.Op) (self : SecureUser.t)
    : list string :=
  match op with
  | SecureUser.GrantPermission p =>
      add_permission p
        (Some (UserIdentity.status_eqb
                 (UserIdentity.get_verification_status (SecureUser._identity self))
                 UserIdentity.VERIFIED))
        (SecureUser.__access self)
  | SecureUser.RevokePermission p => remove_permission p (SecureUser.__access self)
  | SecureUser.RequestVerification =>
      request_verification now (SecureUser._identity self)
  | SecureUser.VerifyIdentity => verify now (SecureUser._identity self)
  | SecureUser.UpdateEmail m => set_email now m (SecureUser._identity self)
  end.

End Console.

(** ** The specification's wording of the two validation rules

    These two predicates follow the words of the specification; the
    validators above follow the source. *)

Module Wording.
Import Py.

(** [local@domain.tld]: a local part of letters, digits and [._%+-], an
    [@], a domain of letters, digits, dots and hyphens, a dot, and a final
    label of at least two letters. *)
Definition email_shape (cs : list ascii) : Prop :=
  exists local domain tld : list ascii,
    cs = (local ++ "@"%char :: domain ++ "."%char :: tld)%list
    /\ local <> [] /\ forallb UserIdentity.local_class local = true
    /\ domain <> [] /\ forallb UserIdentity.domain_class domain = true
    /\ 2 <= length tld /\ forallb is_alpha tld = true.

Definition is_separator (c : ascii) : bool :=
  Ascii.eqb c " " || Ascii.eqb c "-" || Ascii.eqb c "(" || Ascii.eqb c ")".

Definition strip_separators (cs : list ascii) : list ascii :=
  List.filter (fun c => negb (is_separator c)) cs.

(** A [+], then a rest that, once spaces, dashes and parentheses are
    dropped, consists of digits only, the [+] and the digits making up 11 to
    16 characters. *)
Definition phone_shape (cs : list ascii) : Prop :=
  exists rest : list ascii,
    cs = "+"%char :: rest
    /\ forallb is_digit (strip_separators rest) = true
    /\ 11 <= S (length (strip_separators rest)) <= 16.

End Wording.

(** ** Predicates and sample accounts used to state the properties *)

Module Props.
Import Py.

(** A restricted permission name: [TRANSFER] or [WITHDRAW] in any case. *)
Definition restricted (name : string) : Prop :=
  upper name = "TRANSFER" \/ upper name = "WITHDRAW".

(** Every stored permission equals its own uppercasing. *)
Definition uppercase (perms : list string) : Prop :=
  Forall (fun p => upper p = p) perms.

(** Stored permissions are uppercase and none is stored twice. *)
Definition canonical (a : AccountAccess.t) : Prop :=
  uppercase (AccountAccess.__permissions a) /\ NoDup (AccountAccess.__permissions a).

Definition status (u : SecureUser.t) : UserIdentity.Status :=
  UserIdentity.get_verification_status (SecureUser._identity u).

Definition permissions (u : SecureUser.t) : list string :=
  AccountAccess.get_permissions (SecureUser.__access u).

(** The entry [entry] records the failure [e]: its details end with the
    message of [e]. *)
Definition records_failure (entry : SecureUser.LogEntry) (e : ValueError) : Prop :=
  exists prefix, SecureUser.details entry = prefix ++ str_exc e.

(** The log went from [before] to [after] by one entry that records [e]. *)
Definition audited (before after : list SecureUser.LogEntry) (e : ValueError) : Prop :=
  exists entry, after = (before ++ [entry])%list /\ records_failure entry e.

(** The entry a failing call leaves in the audit log: the action it names
    and the details it gives for the error [e]. *)
Definition failure_action (op : SecureUser.Op) : string :=
  match op with
  | SecureUser.GrantPermission _ => "Permission grant FAILED"
  | SecureUser.RevokePermission _ => "Permission revoke failed (not found)"
  | SecureUser.RequestVerification => "Verification request FAILED"
  | SecureUser.VerifyIdentity => "Verification FAILED"
  | SecureUser.UpdateEmail _ => "Email update FAILED"
  end.

Definition failure_details (op : SecureUser.Op) (e : ValueError) : string :=
  match op with
  | SecureUser.GrantPermission p => "Permission: " ++ p ++ ", Reason: " ++ str_exc e
  | SecureUser.RevokePermission p => "Permission: " ++ p
  | _ => str_exc e
  end.

(** What the calls of a sequence returned or raised, in order. *)
Fixpoint outcomes (calls : list (string * SecureUser.Op)) (self : SecureUser.t)
    : list (Exc unit) :=
  match calls with
  | [] => []
  | (now, op) :: rest =>
      snd (SecureUser.call now op self)
      :: outcomes rest (fst (SecureUser.call now op self))
  end.

(** The account [SecureUser("alice", "alice@x.com", "+1-555-000-0000")]
    right after its construction at clock reading ["t0"]. *)
Definition alice : SecureUser.t :=
  {| SecureUser._identity :=
       {| UserIdentity.username := "alice";
          UserIdentity._email := Some "alice@x.com";
          UserIdentity.__phone_number := Some "+1-555-000-0000";
          UserIdentity.__verification_status := UserIdentity.UNVERIFIED |};
     SecureUser.__access := AccountAccess.__init__;
     SecureUser.__audit_log :=
       [{| SecureUser.timestamp := "t0";
           SecureUser.action := "SecureUser created";
           SecureUser.details := "Username: alice" |}] |}.

(** The same account once verification was requested and performed. *)
Definition alice_verified : SecureUser.t :=
  SecureUser.call_all
    [("t1", SecureUser.RequestVerification); ("t2", SecureUser.VerifyIdentity)]
    alice.

(** The calls of the end-to-end scenario, after the construction. *)
Definition scenario : list (string * SecureUser.Op) :=
  [("t1", SecureUser.GrantPermission "VIEW");
   ("t2", SecureUser.GrantPermission "WITHDRAW");
   ("t3", SecureUser.RequestVerification);
   ("t4", SecureUser.VerifyIdentity);
   ("t5", SecureUser.GrantPermission "WITHDRAW")].

(** ["john@site.com\n"] *)
Definition john_newline : string := "john@site.com" ++ String Re.LF EmptyString.

(** The references an account holds point to list objects of the store. *)
Definition lists_allocated (self : Aliased.t) (σ : list Aliased.obj) : Prop :=
  (exists items, σ !! Aliased.__permissions self = Some (Aliased.PyList items))
  /\ (exists items, σ !! Aliased.__audit_log self = Some (Aliased.PyList items)).

(** Every reference among [items] points into the store. *)
Definition refs_allocated (items : list Aliased.value) (σ : list Aliased.obj) : Prop :=
  Forall (fun v => match v with Aliased.VRef k => k < length σ | _ => True end) items.

(** The position of a status on the way to [VERIFIED]. *)
Definition rank (s : UserIdentity.Status) : nat :=
  match s with
  | UserIdentity.UNVERIFIED => 0
  | UserIdentity.PENDING => 1
  | UserIdentity.VERIFIED => 2
  end.

(** The actions the account logs for a call that raised. *)
Definition failure_actions : list string :=
  ["Permission grant FAILED"; "Verification request FAILED";
   "Verification FAILED"; "Email update FAILED"].

(** How often the character [c] occurs in [cs]. *)
Definition count_char (c : ascii) (cs : list ascii) : nat :=
  length (List.filter (Ascii.eqb c) cs).

(** The condition under which a call raises. *)
Definition refused (op : SecureUser.Op) (u : SecureUser.t) : Prop :=
  match op with
  | SecureUser.GrantPermission p => restricted p /\ status u <> UserIdentity.VERIFIED
  | SecureUser.RevokePermission _ => False
  | SecureUser.RequestVerification => status u <> UserIdentity.UNVERIFIED
  | SecureUser.VerifyIdentity => status u <> UserIdentity.PENDING
  | SecureUser.UpdateEmail m =>
      UserIdentity.__validate_email m <> Return m
  end.

(** Grants of the names [names], each at its clock reading. *)
Definition grants (names : list (string * string)) : list (string * SecureUser.Op) :=
  map (fun tn => (fst tn, SecureUser.GrantPermission (snd tn))) names.

(** What [__validate_phone] accepts: a [+], then a rest that, once the
    separators are dropped, consists of characters [str.isdigit] accepts,
    the [+] and these characters making up 11 to 16 characters. *)
Definition accepted_phone (cs : list ascii) : Prop :=
  exists rest : list ascii,
    cs = "+"%char :: rest
    /\ forallb is_digit_char (Wording.strip_separators rest) = true
    /\ 11 <= S (length (Wording.strip_separators rest)) <= 16.

(** The number [+1555123456] followed by a superscript two. *)
Definition superscript_phone : string :=
  "+1555123456" ++ String "178"%char EmptyString.

End Props.

(** * Properties *)

(** ** Strings and lists *)

Section PyFacts.
Import Py.

Lemma upper_char_idem (c : ascii) : upper_char (upper_char c) = upper_char c.
Proof. destruct c as [[] [] [] [] [] [] [] []]; reflexivity. Qed.

Lemma upper_idem (s : string) : upper (upper s) = upper s.
Proof.
  induction s as [|c s IH]; simpl; [reflexivity|].
  now rewrite upper_char_idem, IH.
Qed.

Lemma append_assoc (s1 s2 s3 : string) :
  (s1 ++ s2) ++ s3 = s1 ++ (s2 ++ s3).
Proof.
  induction s1 as [|c s1 IH]; [reflexivity|].
  change (String c ((s1 ++ s2) ++ s3) = String c (s1 ++ s2 ++ s3)). congruence.
Qed.

Lemma contains_elem_of (x : string) (l : list string) :
  contains x l = true <-> x ∈ l.
Proof.
  induction l as [|y l IH]; simpl.
  - split; [discriminate | inversion 1].
  - rewrite orb_true_iff, IH, String.eqb_eq, elem_of_cons.
    split; (intros [?|?]; [left | right]); congruence.
Qed.

Lemma contains_false (x : string) (l : list string) :
  contains x l = false <-> x ∉ l.
Proof.
  rewrite <- contains_elem_of. destruct (contains x l); split; congruence.
Qed.

Lemma list_remove_elem_of (x y : string) (l : list string) :
  y ∈ list_remove x l -> y ∈ l.
Proof.
  induction l as [|z l IH]; simpl; [tauto|].
  destruct (String.eqb z x); rewrite ?elem_of_cons; tauto.
Qed.

Lemma list_remove_NoDup (x : string) (l : list string) :
  NoDup l -> NoDup (list_remove x l) /\ x ∉ list_remove x l.
Proof.
  induction 1 as [|z l Hz Hl IH]; simpl.
  - split; [constructor | inversion 1].
  - destruct (String.eqb z x) eqn:E.
    + apply String.eqb_eq in E. subst z. auto.
    + apply String.eqb_neq in E. destruct IH as [IH1 IH2]. split.
      * constructor; [|assumption].
        intros Hin. apply Hz. eapply list_remove_elem_of, Hin.
      * rewrite elem_of_cons. intros [->|Hin]; [congruence | tauto].
Qed.

Lemma list_remove_length (x : string) (l : list string) :
  x ∈ l -> S (length (list_remove x l)) = length l.
Proof.
  induction l as [|z l IH]; simpl; [inversion 1|].
  destruct (String.eqb z x) eqn:E; [reflexivity|].
  apply String.eqb_neq in E. rewrite elem_of_cons. intros [?|Hin]; [congruence|].
  simpl. now rewrite IH.
Qed.

End PyFacts.

(** ** The matcher decides the language *)

Section ReFacts.
Import Re.

Lemma nullable_Matches (r : regex) : nullable r = true <-> Matches r [].
Proof.
  induction r as [| |p|r1 IH1 r2 IH2|r1 IH1 r2 IH2|r IH]; simpl.
  - split; [discriminate | inversion 1].
  - split; [constructor | reflexivity].
  - split; [discriminate | inversion 1].
  - rewrite andb_true_iff, IH1, IH2. split.
    + intros [H1 H2]. apply (MCat _ _ [] [] H1 H2).
    + inversion 1 as [| |? ? s1 s2 H1 H2 Hr Hs| | | |].
      apply app_eq_nil in Hs as [-> ->]. auto.
  - rewrite orb_true_iff, IH1, IH2. split.
    + intros [H|H]; [apply MAltL | apply MAltR]; exact H.
    + inversion 1; auto.
  - split; [constructor | reflexivity].
Qed.

Lemma Matches_deriv (c : ascii) (r : regex) (s : list ascii) :
  Matches r (c :: s) -> Matches (deriv c r) s.
Proof.
  intros H. remember (c :: s) as cs eqn:Hcs. revert s Hcs.
  induction H as [|p a Hp|r1 r2 s1 s2 H1 IH1 H2 IH2|r1 r2 s0 H IH
                  |r1 r2 s0 H IH|r|r s1 s2 H1 IH1 H2 IH2]; intros s Hcs; simpl.
  - discriminate.
  - injection Hcs as -> <-. rewrite Hp. constructor.
  - destruct s1 as [|a s1]; simpl in Hcs.
    + subst s2. apply nullable_Matches in H1. rewrite H1.
      apply MAltR. now apply IH2.
    + injection Hcs as -> <-.
      assert (Matches (Cat (deriv c r1) r2) (s1 ++ s2)) as HC
        by (apply MCat; [now apply IH1 | assumption]).
      destruct (nullable r1); [apply MAltL|]; exact HC.
  - apply MAltL. now apply IH.
  - apply MAltR. now apply IH.
  - discriminate.
  - destruct s1 as [|a s1]; simpl in Hcs.
    + now apply IH2.
    + injection Hcs as -> <-. apply MCat; [now apply IH1 | assumption].
Qed.

Lemma deriv_Matches (c : ascii) (r : regex) (s : list ascii) :
  Matches (deriv c r) s -> Matches r (c :: s).
Proof.
  revert s.
  induction r as [| |p|r1 IH1 r2 IH2|r1 IH1 r2 IH2|r IH]; simpl; intros s H.
  - inversion H.
  - inversion H.
  - destruct (p c) eqn:Hp; inversion H; subst. now constructor.
  - assert (forall s, Matches (Cat (deriv c r1) r2) s -> Matches (Cat r1 r2) (c :: s))
      as HC.
    { intros s0 H0. inversion H0 as [| |? ? s1 s2 H1 H2 Hr Hs| | | |]; subst.
      apply (MCat r1 r2 (c :: s1) s2); [now apply IH1 | assumption]. }
    destruct (nullable r1) eqn:Hn; [|now apply HC].
    inversion H; subst; [now apply HC|].
    apply (MCat r1 r2 [] (c :: s)); [now apply nullable_Matches | now apply IH2].
  - inversion H; subst; [apply MAltL | apply MAltR]; auto.
  - inversion H as [| |? ? s1 s2 H1 H2 Hr Hs| | | |]; subst.
    apply (MStarApp r (c :: s1) s2); [now apply IH | assumption].
Qed.

Lemma full_match_Matches (r : regex) (s : list ascii) :
  full_match r s = true <-> Matches r s.
Proof.
  revert r. induction s as [|c s IH]; intros r; simpl.
  - apply nullable_Matches.
  - rewrite IH. split; [apply deriv_Matches | apply Matches_deriv].
Qed.

Lemma Matches_Cat_inv (r1 r2 : regex) (s : list ascii) :
  Matches (Cat r1 r2) s <->
  exists s1 s2, s = (s1 ++ s2)%list /\ Matches r1 s1 /\ Matches r2 s2.
Proof.
  split.
  - inversion 1; subst; eauto.
  - intros (s1 & s2 & -> & H1 & H2). now constructor.
Qed.

Lemma Matches_Class_inv (p : ascii -> bool) (s : list ascii) :
  Matches (Class p) s <-> exists c, s = [c] /\ p c = true.
Proof.
  split.
  - inversion 1; subst; eauto.
  - intros (c & -> & Hp). now constructor.
Qed.

Lemma Matches_Lit_inv (c : ascii) (s : list ascii) :
  Matches (Lit c) s <-> s = [c].
Proof.
  unfold Lit. rewrite Matches_Class_inv. split.
  - intros (a & -> & Ha). apply Ascii.eqb_eq in Ha. now subst.
  - intros ->. exists c. split; [reflexivity | apply Ascii.eqb_refl].
Qed.

Lemma Matches_Star_Class (p : ascii -> bool) (s : list ascii) :
  Matches (Star (Class p)) s <-> forallb p s = true.
Proof.
  split.
  - intros H. remember (Star (Class p)) as r eqn:Hr.
    induction H as [| | | | | |r0 s1 s2 H1 _ _ IH2]; try discriminate.
    + reflexivity.
    + injection Hr as ->. apply Matches_Class_inv in H1 as (c & -> & Hc).
      simpl. rewrite Hc. now apply IH2.
  - induction s as [|c s IH]; simpl; intros H.
    + constructor.
    + apply andb_true_iff in H as [Hc Hs].
      apply (MStarApp (Class p) [c] s); [now constructor | now apply IH].
Qed.

Lemma Matches_Plus_Class (p : ascii -> bool) (s : list ascii) :
  Matches (Plus (Class p)) s <-> s <> [] /\ forallb p s = true.
Proof.
  unfold Plus. rewrite Matches_Cat_inv. split.
  - intros (s1 & s2 & -> & H1 & H2).
    apply Matches_Class_inv in H1 as (c & -> & Hc).
    apply Matches_Star_Class in H2. simpl. rewrite Hc, H2. split; [discriminate | reflexivity].
  - intros [Hne H]. destruct s as [|c s]; [congruence|]. simpl in H.
    apply andb_true_iff in H as [Hc Hs]. exists [c], s.
    split; [reflexivity|]. split; [now constructor | now apply Matches_Star_Class].
Qed.

Lemma Matches_AtLeast2_Class (p : ascii -> bool) (s : list ascii) :
  Matches (AtLeast2 (Class p)) s <-> 2 <= length s /\ forallb p s = true.
Proof.
  unfold AtLeast2. rewrite Matches_Cat_inv. split.
  - intros (s1 & s2 & -> & H1 & H2).
    apply Matches_Class_inv in H1 as (c & -> & Hc).
    apply (Matches_Plus_Class p) in H2 as [Hne H2].
    destruct s2 as [|d s2]; [congruence|]. simpl in *. rewrite Hc, H2.
    split; [lia | reflexivity].
  - intros [Hlen H]. destruct s as [|c [|d s]]; simpl in Hlen; try lia.
    simpl in H. apply andb_true_iff in H as [Hc H]. exists [c], (d :: s).
    split; [reflexivity|]. split; [now constructor|].
    apply (Matches_Plus_Class p). split; [discriminate | exact H].
Qed.

Lemma before_final_newline_spec (s s' : list ascii) :
  before_final_newline s = Some s' <-> s = (s' ++ [LF])%list.
Proof.
  revert s'. induction s as [|c s IH]; intros s'.
  - simpl. split; [discriminate | destruct s'; discriminate].
  - destruct s as [|d s].
    + simpl. destruct (Ascii.eqb c LF) eqn:E.
      * apply Ascii.eqb_eq in E. subst c. split.
        -- now intros [= <-].
        -- destruct s' as [|a [|b s']]; simpl; intros [=]; reflexivity.
      * apply Ascii.eqb_neq in E. split; [discriminate|].
        destruct s' as [|a [|b s']]; simpl; intros [=]; congruence.
    + change (before_final_newline (c :: d :: s))
        with (option_map (cons c) (before_final_newline (d :: s))).
      destruct (before_final_newline (d :: s)) as [t|]; simpl.
      * assert (d :: s = (t ++ [LF])%list) as Ht by now apply IH.
        rewrite Ht. split.
        -- now intros [= <-].
        -- destruct s' as [|a s']; simpl.
           ++ destruct t; discriminate.
           ++ intros [= <- H]. apply app_inj_tail in H as [-> _]. reflexivity.
      * split; [discriminate|]. destruct s' as [|a s']; simpl; intros [= <- H].
        assert (@None (list ascii) = Some s') as Hs by now apply IH.
        discriminate.
Qed.

End ReFacts.

(** ** The validators of [UserIdentity] *)

Section ValidationFacts.
Import Py.

Lemma email_pattern_shape (cs : list ascii) :
  Re.full_match UserIdentity.email_pattern cs = true <-> Wording.email_shape cs.
Proof.
  rewrite full_match_Matches. unfold UserIdentity.email_pattern, Wording.email_shape.
  split.
  - intros H.
    apply Matches_Cat_inv in H as (loc & s1 & -> & Hloc & H).
    apply Matches_Cat_inv in H as (at_ & s2 & -> & Hat & H).
    apply Matches_Cat_inv in H as (dom & s3 & -> & Hdom & H).
    apply Matches_Cat_inv in H as (dot & tld & -> & Hdot & Htld).
    apply Matches_Lit_inv in Hat, Hdot. subst at_ dot.
    apply Matches_Plus_Class in Hloc as [? ?], Hdom as [? ?].
    apply Matches_AtLeast2_Class in Htld as [? ?].
    exists loc, dom, tld. simpl. auto 10.
  - intros (loc & dom & tld & -> & ? & ? & ? & ? & ? & ?).
    apply (Re.MCat _ _ loc); [now apply Matches_Plus_Class|].
    apply (Re.MCat _ _ ["@"%char]); [now apply Matches_Lit_inv|].
    apply (Re.MCat _ _ dom); [now apply Matches_Plus_Class|].
    apply (Re.MCat _ _ ["."%char]); [now apply Matches_Lit_inv|].
    now apply Matches_AtLeast2_Class.
Qed.

(** [__validate_email] either returns its argument or raises a validation
    error naming it. *)
Lemma validate_email_cases (email : string) :
  (Re.match_caret_dollar UserIdentity.email_pattern email = true
   /\ UserIdentity.__validate_email email = Return email)
  \/ (Re.match_caret_dollar UserIdentity.email_pattern email = false
      /\ UserIdentity.__validate_email email =
         Raise {| kind := ValidationError;
                  message := "Invalid email format: " ++ email |}).
Proof.
  unfold UserIdentity.__validate_email.
  destruct (Re.match_caret_dollar _ _); simpl; auto.
Qed.

(** What the source accepts as an email: the shape of the specification,
    optionally followed by one newline. *)
Lemma validate_email_accepts (email : string) :
  UserIdentity.__validate_email email = Return email <->
  Wording.email_shape (list_ascii_of_string email)
  \/ exists cs, list_ascii_of_string email = (cs ++ [Re.LF])%list
                /\ Wording.email_shape cs.
Proof.
  destruct (validate_email_cases email) as [[Hm ->]|[Hm ->]];
    unfold Re.match_caret_dollar in Hm; cbv zeta in Hm.
  - split; [intros _ | reflexivity].
    apply orb_true_iff in Hm as [Hm|Hm].
    + left. now apply email_pattern_shape.
    + right. destruct (Re.before_final_newline _) as [cs|] eqn:E; [|discriminate].
      exists cs. split; [now apply before_final_newline_spec | now apply email_pattern_shape].
  - split; [discriminate|]. apply orb_false_iff in Hm as [Hm1 Hm2].
    intros [H|(cs & E & H)]; apply email_pattern_shape in H.
    + congruence.
    + apply before_final_newline_spec in E. rewrite E in Hm2. congruence.
Qed.

Lemma length_list_ascii (s : string) :
  length (list_ascii_of_string s) = String.length s.
Proof. induction s; simpl; congruence. Qed.

Lemma all_chars_forallb (p : ascii -> bool) (s : string) :
  all_chars p s = forallb p (list_ascii_of_string s).
Proof. induction s; simpl; congruence. Qed.

Lemma replace_char_filter (c : ascii) (s : string) :
  list_ascii_of_string (replace_char c s) =
  List.filter (fun a => negb (Ascii.eqb a c)) (list_ascii_of_string s).
Proof.
  induction s as [|a s IH]; simpl; [reflexivity|].
  destruct (Ascii.eqb a c); simpl; congruence.
Qed.

Lemma filter_filter (p q : ascii -> bool) (l : list ascii) :
  List.filter q (List.filter p l) = List.filter (fun a => p a && q a) l.
Proof.
  induction l as [|a l IH]; simpl; [reflexivity|].
  destruct (p a); simpl; [destruct (q a)|]; congruence.
Qed.

(** The four [replace] calls of [__validate_phone] drop the separators. *)
Lemma cleaned_strip_separators (phone : string) :
  list_ascii_of_string
    (replace_char ")" (replace_char "(" (replace_char "-" (replace_char " " phone)))) =
  Wording.strip_separators (list_ascii_of_string phone).
Proof.
  rewrite !replace_char_filter, !filter_filter. unfold Wording.strip_separators.
  apply List.filter_ext. intros a. unfold Wording.is_separator.
  destruct (Ascii.eqb a " "), (Ascii.eqb a "-"), (Ascii.eqb a "("), (Ascii.eqb a ")");
    reflexivity.
Qed.

Lemma validate_phone_cases (phone : string) :
  UserIdentity.__validate_phone phone = Return phone
  \/ UserIdentity.__validate_phone phone =
     Raise {| kind := ValidationError;
              message := "Invalid phone format: " ++ phone
                         ++ ". Expected format: +X-XXX-XXX-XXXX" |}.
Proof.
  unfold UserIdentity.__validate_phone. cbv zeta.
  destruct (_ && _ && _); [destruct (isdigit _)|]; auto.
Qed.

(** What the source accepts as a phone number. *)
Lemma validate_phone_accepts (phone : string) :
  UserIdentity.__validate_phone phone = Return phone <->
  Props.accepted_phone (list_ascii_of_string phone).
Proof.
  unfold UserIdentity.__validate_phone, Props.accepted_phone. cbv zeta.
  destruct phone as [|a rest]; simpl startswith_char.
  - simpl. split; [discriminate | intros (r & [=] & _)].
  - destruct (Ascii.eqb a "+") eqn:Ea.
    + apply Ascii.eqb_eq in Ea. subst a.
      change (replace_char ")" (replace_char "(" (replace_char "-"
                (replace_char " " (String "+" rest)))))
        with (String "+" (replace_char ")" (replace_char "(" (replace_char "-"
                (replace_char " " rest))))).
      pose proof (cleaned_strip_separators rest) as Hc.
      set (cl := replace_char _ (replace_char _ (replace_char _ (replace_char _ rest))))
        in *.
      assert (String.length cl =
              length (Wording.strip_separators (list_ascii_of_string rest))) as Hl
        by (rewrite <- Hc; symmetry; apply length_list_ascii).
      assert (isdigit cl = true <->
              forallb is_digit_char
                (Wording.strip_separators (list_ascii_of_string rest)) = true
              /\ cl <> EmptyString) as Hd.
      { rewrite <- Hc, <- all_chars_forallb. destruct cl; simpl.
        - split; [discriminate | intros [_ []]; reflexivity].
        - split; [intros ->; split; [reflexivity | discriminate] | tauto]. }
      change (String.length (String "+" cl)) with (S (String.length cl)).
      change (slice_from_1 (String "+" cl)) with cl. rewrite Hl.
      remember (S (length (Wording.strip_separators (list_ascii_of_string rest))))
        as n eqn:Hn.
      destruct (Nat.leb_spec 11 n) as [E1|E1], (Nat.leb_spec n 16) as [E2|E2]; simpl.
      * destruct (isdigit cl) eqn:Ed.
        -- split; [intros _ | reflexivity]. exists (list_ascii_of_string rest).
           split; [reflexivity|]. split; [now apply Hd | lia].
        -- split; [discriminate|]. intros (r & [= <-] & Hr & _).
           enough (false = true) by discriminate.
           apply Hd. split; [exact Hr|]. intros Hcl. rewrite Hcl in Hl.
           simpl in Hl. lia.
      * split; [discriminate|]. intros (r & [= <-] & _ & Hr). lia.
      * split; [discriminate|]. intros (r & [= <-] & _ & Hr). lia.
      * split; [discriminate|]. intros (r & [= <-] & _ & Hr). lia.
    + apply Ascii.eqb_neq in Ea. simpl.
      split; [discriminate | intros (r & [= ? _] & _); congruence].
Qed.

(** The rule of the specification is one way of being accepted. *)
Lemma phone_shape_accepted (cs : list ascii) :
  Wording.phone_shape cs -> Props.accepted_phone cs.
Proof.
  intros (rest & -> & Hd & Hl). exists rest. split; [reflexivity|]. split; [|exact Hl].
  rewrite forallb_forall in *. intros c Hc. unfold is_digit_char.
  now rewrite (Hd c Hc).
Qed.

Lemma all_chars_is_ascii (s : string) :
  is_ascii s = forallb is_ascii_char (list_ascii_of_string s).
Proof. apply all_chars_forallb. Qed.

(** On ASCII text the source accepts exactly what the rule describes. *)
Lemma accepted_phone_ascii (phone : string) :
  is_ascii phone = true ->
  Props.accepted_phone (list_ascii_of_string phone) ->
  Wording.phone_shape (list_ascii_of_string phone).
Proof.
  rewrite all_chars_is_ascii. intros Ha (rest & Hp & Hd & Hl).
  exists rest. split; [exact Hp|]. split; [|exact Hl].
  rewrite Hp in Ha. simpl in Ha.
  rewrite forallb_forall in *. intros c Hc.
  specialize (Hd c Hc). unfold Wording.strip_separators in Hc.
  apply List.filter_In in Hc as [Hc _]. specialize (Ha c Hc).
  revert Ha Hd. destruct c as [[] [] [] [] [] [] [] []]; vm_compute; congruence.
Qed.

Lemma digits_survive_stripping (cs : list ascii) :
  length (List.filter is_digit cs) <= length (Wording.strip_separators cs).
Proof.
  induction cs as [|c cs IH]; simpl; [lia|].
  destruct (is_digit c) eqn:Hd.
  - assert (Wording.is_separator c = false) as ->.
    { revert Hd. destruct c as [[] [] [] [] [] [] [] []]; vm_compute; congruence. }
    simpl. lia.
  - destruct (negb (Wording.is_separator c)); simpl; lia.
Qed.

End ValidationFacts.

(** ** [UserIdentity] *)

Section IdentityFacts.
Import Py Props.

Lemma set_email_cases (new_email : string) (i : UserIdentity.t) :
  (UserIdentity.__validate_email new_email = Return new_email
   /\ UserIdentity.set_email new_email i =
      (UserIdentity.with_email (Some new_email) i, Return tt))
  \/ (exists e, kind e = ValidationError
      /\ UserIdentity.__validate_email new_email = Raise e
      /\ UserIdentity.set_email new_email i = (i, Raise e)).
Proof.
  unfold UserIdentity.set_email.
  destruct (validate_email_cases new_email) as [[_ ->]|[_ ->]]; [now left|].
  right. eexists. split; [|split; reflexivity]. reflexivity.
Qed.

Lemma request_verification_cases (i : UserIdentity.t) :
  (UserIdentity.__verification_status i = UserIdentity.UNVERIFIED
   /\ UserIdentity.request_verification i =
      (UserIdentity.with_verification_status UserIdentity.PENDING i, Return tt))
  \/ (UserIdentity.__verification_status i <> UserIdentity.UNVERIFIED
      /\ exists e, kind e = InvalidStateTransition
         /\ UserIdentity.request_verification i = (i, Raise e)).
Proof.
  unfold UserIdentity.request_verification.
  destruct (UserIdentity.__verification_status i);
    [left; auto
    | right; split; [discriminate | eexists; split; [|reflexivity]; reflexivity] ..].
Qed.

Lemma verify_cases (i : UserIdentity.t) :
  (UserIdentity.__verification_status i = UserIdentity.PENDING
   /\ UserIdentity.verify i =
      (UserIdentity.with_verification_status UserIdentity.VERIFIED i, Return tt))
  \/ (UserIdentity.__verification_status i <> UserIdentity.PENDING
      /\ exists e, kind e = InvalidStateTransition
         /\ UserIdentity.verify i = (i, Raise e)).
Proof.
  unfold UserIdentity.verify.
  destruct (UserIdentity.__verification_status i);
    [right; split; [discriminate | eexists; split; [|reflexivity]; reflexivity]
    | left; auto
    | right; split; [discriminate | eexists; split; [|reflexivity]; reflexivity]].
Qed.

(** The constructor succeeds exactly on a valid email and a valid phone
    number, and then stores both with the status [UNVERIFIED]. *)
Lemma identity_init_returns (username email phone : string) (i : UserIdentity.t) :
  UserIdentity.__init__ username email phone = Return i <->
  UserIdentity.__validate_email email = Return email
  /\ UserIdentity.__validate_phone phone = Return phone
  /\ i = {| UserIdentity.username := username;
            UserIdentity._email := Some email;
            UserIdentity.__phone_number := Some phone;
            UserIdentity.__verification_status := UserIdentity.UNVERIFIED |}.
Proof.
  unfold UserIdentity.__init__. cbv zeta.
  match goal with |- context [UserIdentity.set_email email ?i0] =>
    destruct (set_email_cases email i0) as [[He ->]|(e & _ & He & ->)] end.
  - destruct (validate_phone_cases phone) as [Hp|Hp]; rewrite Hp.
    + split.
      * intros [= <-]. auto.
      * intros (_ & _ & ->). reflexivity.
    + split; [discriminate | intros (_ & [=] & _)].
  - rewrite He. split; [discriminate | intros ([=] & _)].
Qed.

Lemma identity_init_raises (username email phone : string) (e : ValueError) :
  UserIdentity.__init__ username email phone = Raise e -> kind e = ValidationError.
Proof.
  unfold UserIdentity.__init__. cbv zeta.
  match goal with |- context [UserIdentity.set_email email ?i0] =>
    destruct (set_email_cases email i0) as [[He ->]|(e' & Hk & He & ->)] end.
  - destruct (validate_phone_cases phone) as [Hp|Hp]; rewrite Hp;
      [discriminate | now intros [= <-]].
  - now intros [= <-].
Qed.

End IdentityFacts.

(** ** [AccountAccess] *)

Section AccessFacts.
Import Py Props.

Lemma restricted_contains (name : string) :
  contains (upper name) AccountAccess.RESTRICTED_PERMISSIONS = true <->
  restricted name.
Proof.
  unfold restricted. rewrite contains_elem_of.
  unfold AccountAccess.RESTRICTED_PERMISSIONS.
  rewrite !elem_of_cons, elem_of_nil. tauto.
Qed.

(** The three ways [add_permission] ends. *)
Lemma add_permission_cases (name : string) (flag : option bool) (a : AccountAccess.t) :
  (restricted name /\ flag = Some false
   /\ exists e, kind e = PermissionDenied
      /\ AccountAccess.add_permission name flag a = (a, Raise e))
  \/ (~ (restricted name /\ flag = Some false)
      /\ (upper name ∉ AccountAccess.__permissions a)
      /\ AccountAccess.add_permission name flag a =
         ({| AccountAccess.__permissions :=
               AccountAccess.__permissions a ++ [upper name] |}, Return tt))
  \/ (~ (restricted name /\ flag = Some false)
      /\ (upper name ∈ AccountAccess.__permissions a)
      /\ AccountAccess.add_permission name flag a = (a, Return tt)).
Proof.
  unfold AccountAccess.add_permission. cbv zeta.
  destruct (contains (upper name) AccountAccess.RESTRICTED_PERMISSIONS) eqn:Hr.
  - apply restricted_contains in Hr.
    destruct flag as [[|]|]; simpl.
    2: { left. split; [assumption|]. split; [reflexivity|].
         eexists; split; [|reflexivity]; reflexivity. }
    all: right;
      destruct (contains (upper name) (AccountAccess.__permissions a)) eqn:Hc; simpl;
      [ right; apply contains_elem_of in Hc
      | left; apply contains_false in Hc ];
      (split; [intros [_ [=]] | split; [assumption | reflexivity]]).
  - assert (~ restricted name) as Hn
      by (rewrite <- restricted_contains; congruence).
    simpl. right.
    destruct (contains (upper name) (AccountAccess.__permissions a)) eqn:Hc; simpl;
      [ right; apply contains_elem_of in Hc
      | left; apply contains_false in Hc ];
      (split; [tauto | split; [assumption | reflexivity]]).
Qed.

Lemma has_permission_elem_of (name : string) (a : AccountAccess.t) :
  AccountAccess.has_permission name a = true <->
  upper name ∈ AccountAccess.__permissions a.
Proof. apply contains_elem_of. Qed.

Lemma add_permission_has (name : string) (flag : option bool) (a : AccountAccess.t) :
  snd (AccountAccess.add_permission name flag a) = Return tt ->
  AccountAccess.has_permission name (fst (AccountAccess.add_permission name flag a)) = true.
Proof.
  rewrite has_permission_elem_of.
  destruct (add_permission_cases name flag a)
    as [(_ & _ & e & _ & ->)|[(_ & _ & ->)|(_ & Hin & ->)]]; simpl.
  - discriminate.
  - intros _. apply elem_of_app. right. apply list_elem_of_singleton. reflexivity.
  - auto.
Qed.

Lemma add_permission_canonical (name : string) (flag : option bool) (a : AccountAccess.t) :
  canonical a -> canonical (fst (AccountAccess.add_permission name flag a)).
Proof.
  intros [Hu Hd].
  destruct (add_permission_cases name flag a)
    as [(_ & _ & e & _ & ->)|[(_ & Hnin & ->)|(_ & _ & ->)]]; simpl;
    try (split; assumption).
  split; simpl.
  - apply Forall_app. split; [assumption|].
    constructor; [apply upper_idem | constructor].
  - apply NoDup_app. split; [assumption|]. split.
    + intros x Hx Hx'. apply list_elem_of_singleton in Hx'. now subst.
    + apply NoDup_singleton.
Qed.

(** The two ways [remove_permission] ends. *)
Lemma remove_permission_cases (name : string) (a : AccountAccess.t) :
  ((upper name ∈ AccountAccess.__permissions a)
   /\ AccountAccess.remove_permission name a =
      ({| AccountAccess.__permissions :=
            list_remove (upper name) (AccountAccess.__permissions a) |}, true))
  \/ ((upper name ∉ AccountAccess.__permissions a)
      /\ AccountAccess.remove_permission name a = (a, false)).
Proof.
  unfold AccountAccess.remove_permission. cbv zeta.
  destruct (contains (upper name) (AccountAccess.__permissions a)) eqn:Hc.
  - left. apply contains_elem_of in Hc. auto.
  - right. apply contains_false in Hc. auto.
Qed.

Lemma remove_permission_canonical (name : string) (a : AccountAccess.t) :
  canonical a -> canonical (fst (AccountAccess.remove_permission name a)).
Proof.
  intros [Hu Hd].
  destruct (remove_permission_cases name a) as [[_ ->]|[_ ->]]; simpl;
    [|split; assumption].
  split; simpl.
  - unfold uppercase in *. rewrite Forall_forall in *.
    intros x Hx. apply Hu. eapply list_remove_elem_of, Hx.
  - now apply list_remove_NoDup.
Qed.

End AccessFacts.

(** ** [SecureUser] *)

Section AccountFacts.
Import Py Props.

Lemma status_eqb_eq (a b : UserIdentity.Status) :
  UserIdentity.status_eqb a b = true <-> a = b.
Proof. destruct a, b; simpl; split; congruence. Qed.

Lemma is_verified_false (s : UserIdentity.Status) :
  s <> UserIdentity.VERIFIED ->
  UserIdentity.status_eqb s UserIdentity.VERIFIED = false.
Proof. destruct s; simpl; congruence. Qed.

(** [grant_permission] hands the outcome of [add_permission] on, called
    with the flag computed from the status of the moment. *)
Lemma grant_permission_delegates (now name : string) (u : SecureUser.t) :
  let r := AccountAccess.add_permission name
             (Some (UserIdentity.status_eqb (status u) UserIdentity.VERIFIED))
             (SecureUser.__access u) in
  SecureUser._identity (fst (SecureUser.grant_permission now name u)) =
    SecureUser._identity u
  /\ SecureUser.__access (fst (SecureUser.grant_permission now name u)) = fst r
  /\ snd (SecureUser.grant_permission now name u) = snd r.
Proof.
  unfold SecureUser.grant_permission, status. cbv zeta.
  destruct (AccountAccess.add_permission _ _ _) as [a [[]|e]]; simpl; auto.
Qed.

Lemma revoke_permission_delegates (now name : string) (u : SecureUser.t) :
  SecureUser._identity (fst (SecureUser.revoke_permission now name u)) =
    SecureUser._identity u
  /\ SecureUser.__access (fst (SecureUser.revoke_permission now name u)) =
     fst (AccountAccess.remove_permission name (SecureUser.__access u))
  /\ snd (SecureUser.revoke_permission now name u) = Return tt.
Proof.
  unfold SecureUser.revoke_permission.
  destruct (AccountAccess.remove_permission _ _) as [a b]; simpl; auto.
Qed.

Lemma request_verification_delegates (now : string) (u : SecureUser.t) :
  SecureUser._identity (fst (SecureUser.request_verification now u)) =
    fst (UserIdentity.request_verification (SecureUser._identity u))
  /\ SecureUser.__access (fst (SecureUser.request_verification now u)) =
     SecureUser.__access u
  /\ snd (SecureUser.request_verification now u) =
     snd (UserIdentity.request_verification (SecureUser._identity u)).
Proof.
  unfold SecureUser.request_verification.
  destruct (UserIdentity.request_verification _) as [i [[]|e]]; simpl; auto.
Qed.

Lemma verify_identity_delegates (now : string) (u : SecureUser.t) :
  SecureUser._identity (fst (SecureUser.verify_identity now u)) =
    fst (UserIdentity.verify (SecureUser._identity u))
  /\ SecureUser.__access (fst (SecureUser.verify_identity now u)) =
     SecureUser.__access u
  /\ snd (SecureUser.verify_identity now u) =
     snd (UserIdentity.verify (SecureUser._identity u)).
Proof.
  unfold SecureUser.verify_identity.
  destruct (UserIdentity.verify _) as [i [[]|e]]; simpl; auto.
Qed.

Lemma update_email_delegates (now new_email : string) (u : SecureUser.t) :
  SecureUser._identity (fst (SecureUser.update_email now new_email u)) =
    fst (UserIdentity.set_email new_email (SecureUser._identity u))
  /\ SecureUser.__access (fst (SecureUser.update_email now new_email u)) =
     SecureUser.__access u
  /\ snd (SecureUser.update_email now new_email u) =
     snd (UserIdentity.set_email new_email (SecureUser._identity u)).
Proof.
  unfold SecureUser.update_email. cbv zeta.
  destruct (UserIdentity.set_email _ _) as [i [[]|e]]; simpl; auto.
Qed.

(** Every call appends one entry stamped with the clock reading of the
    call; when the call raises, the entry ends with the message raised. *)
Lemma call_appends_entry (now : string) (op : SecureUser.Op) (u : SecureUser.t) :
  exists entry,
    SecureUser.__audit_log (fst (SecureUser.call now op u)) =
      (SecureUser.__audit_log u ++ [entry])%list
    /\ SecureUser.timestamp entry = now
    /\ forall e, snd (SecureUser.call now op u) = Raise e -> records_failure entry e.
Proof.
  destruct op as [p|p| | |m]; simpl.
  - unfold SecureUser.grant_permission. cbv zeta.
    destruct (AccountAccess.add_permission _ _ _) as [a [[]|e]]; simpl;
      eexists; (split; [reflexivity|]); (split; [reflexivity|]); intros e' [=].
    subst e'. exists ("Permission: " ++ p ++ ", Reason: ").
    cbn [SecureUser.details]. now rewrite !append_assoc.
  - unfold SecureUser.revoke_permission.
    destruct (AccountAccess.remove_permission _ _) as [a b]; simpl.
    eexists; (split; [reflexivity|]); (split; [reflexivity|]); intros e' [=].
  - unfold SecureUser.request_verification.
    destruct (UserIdentity.request_verification _) as [i [[]|e]]; simpl;
      eexists; (split; [reflexivity|]); (split; [reflexivity|]); intros e' [=].
    subst e'. now exists EmptyString.
  - unfold SecureUser.verify_identity.
    destruct (UserIdentity.verify _) as [i [[]|e]]; simpl;
      eexists; (split; [reflexivity|]); (split; [reflexivity|]); intros e' [=].
    subst e'. now exists EmptyString.
  - unfold SecureUser.update_email. cbv zeta.
    destruct (UserIdentity.set_email _ _) as [i [[]|e]]; simpl;
      eexists; (split; [reflexivity|]); (split; [reflexivity|]); intros e' [=].
    subst e'. now exists EmptyString.
Qed.

(** The entry a failing call appends. *)
Lemma call_failure_entry (now : string) (op : SecureUser.Op) (u : SecureUser.t)
    (e : ValueError) :
  snd (SecureUser.call now op u) = Raise e ->
  SecureUser.__audit_log (fst (SecureUser.call now op u)) =
    (SecureUser.__audit_log u
     ++ [{| SecureUser.timestamp := now;
            SecureUser.action := failure_action op;
            SecureUser.details := failure_details op e |}])%list.
Proof.
  destruct op as [p|p| | |m]; simpl.
  - unfold SecureUser.grant_permission. cbv zeta.
    destruct (AccountAccess.add_permission _ _ _) as [a [[]|e']]; simpl;
      intros [=]; subst; reflexivity.
  - unfold SecureUser.revoke_permission.
    destruct (AccountAccess.remove_permission _ _) as [a b]; simpl. discriminate.
  - unfold SecureUser.request_verification.
    destruct (UserIdentity.request_verification _) as [i [[]|e']]; simpl;
      intros [=]; subst; reflexivity.
  - unfold SecureUser.verify_identity.
    destruct (UserIdentity.verify _) as [i [[]|e']]; simpl;
      intros [=]; subst; reflexivity.
  - unfold SecureUser.update_email. cbv zeta.
    destruct (UserIdentity.set_email _ _) as [i [[]|e']]; simpl;
      intros [=]; subst; reflexivity.
Qed.

(** What a call does to the identity and to the permissions, operation by
    operation. *)
Lemma call_delegates (now : string) (op : SecureUser.Op) (u : SecureUser.t) :
  let i := SecureUser._identity u in
  let a := SecureUser.__access u in
  let u' := fst (SecureUser.call now op u) in
  let r := snd (SecureUser.call now op u) in
  match op with
  | SecureUser.GrantPermission p =>
      let d := AccountAccess.add_permission p
                 (Some (UserIdentity.status_eqb (status u) UserIdentity.VERIFIED)) a in
      SecureUser._identity u' = i /\ SecureUser.__access u' = fst d /\ r = snd d
  | SecureUser.RevokePermission p =>
      SecureUser._identity u' = i
      /\ SecureUser.__access u' = fst (AccountAccess.remove_permission p a)
      /\ r = Return tt
  | SecureUser.RequestVerification =>
      SecureUser._identity u' = fst (UserIdentity.request_verification i)
      /\ SecureUser.__access u' = a
      /\ r = snd (UserIdentity.request_verification i)
  | SecureUser.VerifyIdentity =>
      SecureUser._identity u' = fst (UserIdentity.verify i)
      /\ SecureUser.__access u' = a /\ r = snd (UserIdentity.verify i)
  | SecureUser.UpdateEmail m =>
      SecureUser._identity u' = fst (UserIdentity.set_email m i)
      /\ SecureUser.__access u' = a /\ r = snd (UserIdentity.set_email m i)
  end.
Proof.
  destruct op; cbv zeta; simpl SecureUser.call.
  - apply grant_permission_delegates.
  - apply revoke_permission_delegates.
  - apply request_verification_delegates.
  - apply verify_identity_delegates.
  - apply update_email_delegates.
Qed.

(** A call that raises leaves identity and permissions as they were. *)
Lemma call_failure_frame (now : string) (op : SecureUser.Op) (u : SecureUser.t)
    (e : ValueError) :
  snd (SecureUser.call now op u) = Raise e ->
  SecureUser._identity (fst (SecureUser.call now op u)) = SecureUser._identity u
  /\ SecureUser.__access (fst (SecureUser.call now op u)) = SecureUser.__access u.
Proof.
  pose proof (call_delegates now op u) as H. cbv zeta in H.
  destruct op as [p|p| | |m]; destruct H as (Hi & Ha & Hr); rewrite Hi, Ha, Hr.
  - destruct (add_permission_cases p
                (Some (UserIdentity.status_eqb (status u) UserIdentity.VERIFIED))
                (SecureUser.__access u))
      as [(_ & _ & e' & _ & ->)|[(_ & _ & ->)|(_ & _ & ->)]]; simpl;
      [auto | discriminate..].
  - discriminate.
  - destruct (request_verification_cases (SecureUser._identity u))
      as [[_ ->]|(_ & e' & _ & ->)]; simpl; [discriminate | auto].
  - destruct (verify_cases (SecureUser._identity u))
      as [[_ ->]|(_ & e' & _ & ->)]; simpl; [discriminate | auto].
  - destruct (set_email_cases m (SecureUser._identity u))
      as [[_ ->]|(e' & _ & _ & ->)]; simpl; [discriminate | auto].
Qed.

(** The outcome of a call depends on identity and permissions only, not on
    the audit log or the clock. *)
Lemma call_extensional (now1 now2 : string) (op : SecureUser.Op)
    (u1 u2 : SecureUser.t) :
  SecureUser._identity u1 = SecureUser._identity u2 ->
  SecureUser.__access u1 = SecureUser.__access u2 ->
  snd (SecureUser.call now1 op u1) = snd (SecureUser.call now2 op u2)
  /\ SecureUser._identity (fst (SecureUser.call now1 op u1)) =
     SecureUser._identity (fst (SecureUser.call now2 op u2))
  /\ SecureUser.__access (fst (SecureUser.call now1 op u1)) =
     SecureUser.__access (fst (SecureUser.call now2 op u2)).
Proof.
  intros Hi Ha.
  pose proof (call_delegates now1 op u1) as H1.
  pose proof (call_delegates now2 op u2) as H2. cbv zeta in H1, H2.
  unfold status in *. rewrite Hi, Ha in H1.
  destruct op; destruct H1 as (-> & -> & ->), H2 as (-> & -> & ->); auto.
Qed.

(** No call changes the user name or the phone number. *)
Lemma call_keeps_phone (now : string) (op : SecureUser.Op) (u : SecureUser.t) :
  UserIdentity.get_phone_number (SecureUser._identity (fst (SecureUser.call now op u))) =
    UserIdentity.get_phone_number (SecureUser._identity u)
  /\ UserIdentity.username (SecureUser._identity (fst (SecureUser.call now op u))) =
     UserIdentity.username (SecureUser._identity u).
Proof.
  pose proof (call_delegates now op u) as H. cbv zeta in H.
  destruct op as [p|p| | |m]; destruct H as (-> & _ & _); auto.
  - destruct (request_verification_cases (SecureUser._identity u))
      as [[_ ->]|(_ & e' & _ & ->)]; auto.
  - destruct (verify_cases (SecureUser._identity u))
      as [[_ ->]|(_ & e' & _ & ->)]; auto.
  - destruct (set_email_cases m (SecureUser._identity u))
      as [[_ ->]|(e' & _ & _ & ->)]; auto.
Qed.

(** [VERIFIED] is terminal. *)
Lemma call_keeps_verified (now : string) (op : SecureUser.Op) (u : SecureUser.t) :
  status u = UserIdentity.VERIFIED ->
  status (fst (SecureUser.call now op u)) = UserIdentity.VERIFIED.
Proof.
  unfold status, UserIdentity.get_verification_status. intros Hs.
  pose proof (call_delegates now op u) as H. cbv zeta in H.
  destruct op as [p|p| | |m]; destruct H as (-> & _ & _); auto.
  - destruct (request_verification_cases (SecureUser._identity u))
      as [[Hu _]|(_ & e' & _ & ->)]; [congruence | auto].
  - destruct (verify_cases (SecureUser._identity u))
      as [[Hu _]|(_ & e' & _ & ->)]; [congruence | auto].
  - destruct (set_email_cases m (SecureUser._identity u))
      as [[_ ->]|(e' & _ & _ & ->)]; auto.
Qed.

Lemma call_keeps_canonical (now : string) (op : SecureUser.Op) (u : SecureUser.t) :
  canonical (SecureUser.__access u) ->
  canonical (SecureUser.__access (fst (SecureUser.call now op u))).
Proof.
  intros Hc. pose proof (call_delegates now op u) as H. cbv zeta in H.
  destruct op as [p|p| | |m]; destruct H as (_ & -> & _); auto.
  - now apply add_permission_canonical.
  - now apply remove_permission_canonical.
Qed.

(** The constructor returns exactly when the identity can be built, and
    then the account has no permission and one audit entry. *)
Lemma account_init_returns (now username email phone : string) (u : SecureUser.t) :
  SecureUser.__init__ now username email phone = Return u <->
  exists i, UserIdentity.__init__ username email phone = Return i
    /\ u = {| SecureUser._identity := i;
              SecureUser.__access := AccountAccess.__init__;
              SecureUser.__audit_log :=
                [{| SecureUser.timestamp := now;
                    SecureUser.action := "SecureUser created";
                    SecureUser.details := "Username: " ++ username |}] |}.
Proof.
  unfold SecureUser.__init__.
  destruct (UserIdentity.__init__ username email phone) as [i|e]; simpl.
  - split.
    + intros [= <-]. eauto.
    + intros (i' & [= <-] & ->). reflexivity.
  - split; [discriminate | intros (i' & [=] & _)].
Qed.

Lemma reachable_canonical (u : SecureUser.t) :
  SecureUser.reachable u -> canonical (SecureUser.__access u).
Proof.
  induction 1 as [now username email phone self Hinit | now op self _ IH].
  - apply account_init_returns in Hinit as (i & _ & ->). simpl.
    split; simpl; constructor.
  - now apply call_keeps_canonical.
Qed.

Lemma alice_constructed :
  SecureUser.__init__ "t0" "alice" "alice@x.com" "+1-555-000-0000" = Return alice.
Proof. vm_compute. reflexivity. Qed.

End AccountFacts.

(** ** Objects in the store *)

Section StoreFacts.
Import Py Props.

(** A copy is a new object: it sits behind the store that was there. *)
Lemma list_copy_fresh (l : Aliased.loc) (σ : list Aliased.obj) :
  Aliased.list_copy l σ = ((σ ++ [Aliased.PyList (Aliased.list_items l σ)])%list, length σ).
Proof. reflexivity. Qed.

(** Reading a copy gives the items of the original. *)
Lemma list_items_copy (l : Aliased.loc) (σ : list Aliased.obj) :
  Aliased.list_items (length σ) (σ ++ [Aliased.PyList (Aliased.list_items l σ)])%list =
  Aliased.list_items l σ.
Proof.
  unfold Aliased.list_items at 1. now rewrite list_lookup_middle.
Qed.

(** Overwriting the object that was allocated last leaves every older
    object as it was. *)
Lemma overwrite_last_keeps (σ : list Aliased.obj) (x o : Aliased.obj) (l : nat) :
  l < length σ -> (<[length σ := o]> (σ ++ [x])%list) !! l = σ !! l.
Proof.
  intros Hl. rewrite list_lookup_insert_ne by lia. now apply lookup_app_l.
Qed.

Lemma list_items_overwrite_last (σ : list Aliased.obj) (x o : Aliased.obj) (l : nat) :
  l < length σ ->
  Aliased.list_items l (<[length σ := o]> (σ ++ [x])%list) = Aliased.list_items l σ.
Proof.
  intros Hl. unfold Aliased.list_items. now rewrite overwrite_last_keeps.
Qed.

(** The list [get_audit_log] returns and the list [get_permissions] returns
    are objects of their own: whatever a caller puts in their place, the
    two lists the account holds keep their items. *)
Lemma returned_list_is_independent (u : Aliased.t) (σ : list Aliased.obj)
    (o : Aliased.obj) :
  lists_allocated u σ ->
  (let '(σ1, r) := Aliased.get_audit_log u σ in
   Aliased.list_items (Aliased.__audit_log u) (<[r := o]> σ1) =
     Aliased.list_items (Aliased.__audit_log u) σ
   /\ Aliased.list_items (Aliased.__permissions u) (<[r := o]> σ1) =
      Aliased.list_items (Aliased.__permissions u) σ)
  /\ (let '(σ1, r) := Aliased.get_permissions u σ in
      Aliased.list_items (Aliased.__audit_log u) (<[r := o]> σ1) =
        Aliased.list_items (Aliased.__audit_log u) σ
      /\ Aliased.list_items (Aliased.__permissions u) (<[r := o]> σ1) =
         Aliased.list_items (Aliased.__permissions u) σ).
Proof.
  intros [[ps Hp] [ls Hl]].
  apply lookup_lt_Some in Hp, Hl.
  unfold Aliased.get_audit_log, Aliased.get_permissions.
  rewrite !list_copy_fresh.
  repeat split; now apply list_items_overwrite_last.
Qed.

(** The permission list holds strings only, so a later [get_permissions]
    shows the same permissions whatever was done to an earlier result. *)
Lemma permissions_view_independent (u : Aliased.t) (σ : list Aliased.obj)
    (o : Aliased.obj) :
  lists_allocated u σ ->
  let '(σ1, r) := Aliased.get_permissions u σ in
  Aliased.permissions_view u (<[r := o]> σ1) = Aliased.permissions_view u σ.
Proof.
  intros Hall. destruct (returned_list_is_independent u σ o Hall) as [_ H].
  unfold Aliased.permissions_view, Aliased.get_permissions in *.
  rewrite !list_copy_fresh in *. destruct H as [_ H].
  now rewrite !list_items_copy.
Qed.

(** The dictionary [identity_status] returns and the permission list in it
    are both new objects; the list holds the permissions of the account, and
    whatever a caller puts in place of the two objects, the lists the
    account holds keep their items. *)
Lemma identity_status_is_independent (u : Aliased.t) (σ : list Aliased.obj)
    (o1 o2 : Aliased.obj) :
  lists_allocated u σ ->
  let '(σ2, d) := Aliased.identity_status u σ in
  d = S (length σ)
  /\ Aliased.dict_getitem d "permissions" σ2 = Some (Aliased.VRef (length σ))
  /\ Aliased.list_items (length σ) σ2 =
     Aliased.list_items (Aliased.__permissions u) σ
  /\ Aliased.list_items (Aliased.__permissions u)
       (<[d := o1]> (<[length σ := o2]> σ2)) =
     Aliased.list_items (Aliased.__permissions u) σ
  /\ Aliased.list_items (Aliased.__audit_log u)
       (<[d := o1]> (<[length σ := o2]> σ2)) =
     Aliased.list_items (Aliased.__audit_log u) σ.
Proof.
  intros [[ps Hp] [ls Hl]].
  pose proof (lookup_lt_Some _ _ _ Hp) as Hp'.
  pose proof (lookup_lt_Some _ _ _ Hl) as Hl'.
  unfold Aliased.identity_status, Aliased.get_permissions.
  rewrite list_copy_fresh. unfold Aliased.alloc. rewrite length_app. simpl length.
  replace (length σ + 1) with (S (length σ)) by lia.
  split; [reflexivity|]. split; [|split; [|split]].
  - unfold Aliased.dict_getitem, Aliased.dict_fields.
    rewrite list_lookup_middle by (rewrite length_app; simpl; lia). reflexivity.
  - unfold Aliased.list_items at 1.
    rewrite lookup_app_l by (rewrite length_app; simpl; lia).
    now rewrite list_lookup_middle.
  - unfold Aliased.list_items.
    rewrite !list_lookup_insert_ne by lia.
    rewrite !lookup_app_l by (rewrite ?length_app; simpl; lia). reflexivity.
  - unfold Aliased.list_items.
    rewrite !list_lookup_insert_ne by lia.
    rewrite !lookup_app_l by (rewrite ?length_app; simpl; lia). reflexivity.
Qed.

(** Appending an object and updating a list object changes no entry that
    was already readable. *)
Lemma read_entry_extend (σ : list Aliased.obj) (x : Aliased.obj) (l : nat)
    (items items' : list Aliased.value) (v : Aliased.value) :
  match v with Aliased.VRef k => k < length σ | _ => True end ->
  σ !! l = Some (Aliased.PyList items) ->
  Aliased.read_entry (<[l := Aliased.PyList items']> (σ ++ [x])%list) v =
  Aliased.read_entry σ v.
Proof.
  intros Hv Hl. destruct v as [|s|k]; try reflexivity.
  unfold Aliased.read_entry, Aliased.dict_getitem, Aliased.dict_fields.
  destruct (decide (l = k)) as [->|Hne].
  - rewrite list_lookup_insert_eq by (rewrite length_app; lia).
    rewrite Hl. reflexivity.
  - rewrite list_lookup_insert_ne by assumption.
    now rewrite lookup_app_l.
Qed.

(** [__log_action] on the store does what [SecureUser.__log_action] does on
    values: the entries read back are the former ones followed by the new
    one. *)
Lemma log_action_refines (now action details : string) (u : Aliased.t)
    (σ : list Aliased.obj) (items : list Aliased.value) :
  σ !! Aliased.__audit_log u = Some (Aliased.PyList items) ->
  refs_allocated items σ ->
  Aliased.read_log (Aliased.__audit_log u)
    (Aliased.__log_action now action details u σ) =
  (Aliased.read_log (Aliased.__audit_log u) σ
   ++ [Some {| SecureUser.timestamp := now; SecureUser.action := action;
               SecureUser.details := details |}])%list.
Proof.
  intros Hl Hrefs. pose proof (lookup_lt_Some _ _ _ Hl) as Hlt.
  unfold Aliased.__log_action, Aliased.alloc, Aliased.list_append.
  rewrite lookup_app_l, Hl by assumption.
  unfold Aliased.read_log, Aliased.list_items at 1.
  rewrite list_lookup_insert_eq by (rewrite length_app; lia).
  unfold Aliased.list_items. rewrite Hl, map_app. f_equal.
  - apply map_ext_Forall. unfold refs_allocated in Hrefs.
    rewrite Forall_forall in *. intros v Hv.
    eapply read_entry_extend; [now apply Hrefs | exact Hl].
  - simpl. f_equal.
    unfold Aliased.read_entry, Aliased.dict_getitem, Aliased.dict_fields.
    rewrite list_lookup_insert_ne by lia.
    rewrite list_lookup_middle by reflexivity. reflexivity.
Qed.

End StoreFacts.

(** * The claims *)

Section Claims.
Import Py Props.

(** C1.  [grant_permission] computes the verified flag from the status the
    identity has at the moment of the call (the flag is true exactly when
    that status is [VERIFIED]) and hands it to [add_permission], whose
    outcome it passes on.  For a restricted name, [TRANSFER] or [WITHDRAW]
    in any case, the grant raises [PermissionDenied] when the account is not
    [VERIFIED]; when it is [VERIFIED] the grant returns, and afterwards
    [has_permission] answers true for the name in any case. *)
Theorem C1_grant_permission_checks_status (now name : string) (u : SecureUser.t) :
  let is_verified :=
    UserIdentity.status_eqb
      (UserIdentity.get_verification_status (SecureUser._identity u))
      UserIdentity.VERIFIED in
  (is_verified = true <->
   UserIdentity.get_verification_status (SecureUser._identity u) =
     UserIdentity.VERIFIED)
  /\ SecureUser.__access (fst (SecureUser.grant_permission now name u)) =
     fst (AccountAccess.add_permission name (Some is_verified) (SecureUser.__access u))
  /\ snd (SecureUser.grant_permission now name u) =
     snd (AccountAccess.add_permission name (Some is_verified) (SecureUser.__access u))
  /\ (restricted name ->
      (status u <> UserIdentity.VERIFIED ->
       exists e, snd (SecureUser.grant_permission now name u) = Raise e
                 /\ kind e = PermissionDenied)
      /\ (status u = UserIdentity.VERIFIED ->
          snd (SecureUser.grant_permission now name u) = Return tt
          /\ forall name', upper name' = upper name ->
               AccountAccess.has_permission name'
                 (SecureUser.__access (fst (SecureUser.grant_permission now name u)))
               = true)).
Proof.
  cbv zeta. split; [apply status_eqb_eq|].
  destruct (grant_permission_delegates now name u) as (_ & Ha & Hr).
  cbv zeta in Ha, Hr. unfold status in *.
  split; [exact Ha|]. split; [exact Hr|].
  intros Hres. rewrite Hr, Ha. split.
  - intros Hs. rewrite (is_verified_false _ Hs).
    destruct (add_permission_cases name (Some false) (SecureUser.__access u))
      as [(_ & _ & e & Hk & ->)|[(Hn & _)|(Hn & _)]]; simpl; [eauto | tauto..].
  - intros Hs. rewrite Hs. simpl UserIdentity.status_eqb.
    assert (snd (AccountAccess.add_permission name (Some true) (SecureUser.__access u))
            = Return tt) as Hok.
    { destruct (add_permission_cases name (Some true) (SecureUser.__access u))
        as [(_ & [=] & _)|[(_ & _ & ->)|(_ & _ & ->)]]; reflexivity. }
    split; [exact Hok|]. intros name' Hn.
    apply has_permission_elem_of. rewrite Hn. apply has_permission_elem_of.
    now apply add_permission_has.
Qed.

(** C1 at the account [alice]: the name [transfer] is denied before the
    verification and granted after it. *)
Lemma C1_grant_permission_checks_status_witness :
  (exists e, snd (SecureUser.grant_permission "t1" "transfer" alice) = Raise e
             /\ kind e = PermissionDenied)
  /\ (snd (SecureUser.grant_permission "t3" "transfer" alice_verified) = Return tt
      /\ AccountAccess.has_permission "TRANSFER"
           (SecureUser.__access
              (fst (SecureUser.grant_permission "t3" "transfer" alice_verified)))
         = true).
Proof.
  split.
  - destruct (C1_grant_permission_checks_status "t1" "transfer" alice) as (_ & _ & _ & H).
    destruct (H (or_introl eq_refl)) as [Hdenied _].
    apply Hdenied. vm_compute. discriminate.
  - destruct (C1_grant_permission_checks_status "t3" "transfer" alice_verified)
      as (_ & _ & _ & H).
    destruct (H (or_introl eq_refl)) as [_ Hgranted].
    destruct (Hgranted eq_refl) as [Hok Hhas].
    split; [exact Hok | apply Hhas; reflexivity].
Defined.

(** C2.  The verification status is a machine with three states.  An
    account that was just constructed is [UNVERIFIED] and has no permission.
    [request_verification] returns exactly from [UNVERIFIED], moving to
    [PENDING]; from [PENDING] or [VERIFIED] it raises
    [InvalidStateTransition] and changes nothing.  [verify] returns exactly
    from [PENDING], moving to [VERIFIED]; from [UNVERIFIED] or [VERIFIED] it
    raises [InvalidStateTransition] and changes nothing.  The account
    operations pass these outcomes on, and no operation of the account
    leaves [VERIFIED]. *)
Theorem C2_verification_state_machine :
  (forall now username email phone u,
      SecureUser.__init__ now username email phone = Return u ->
      SecureUser.st_verification_status (SecureUser.identity_status u) =
        UserIdentity.UNVERIFIED
      /\ SecureUser.st_permissions (SecureUser.identity_status u) = [])
  /\ (forall i,
        (UserIdentity.get_verification_status i = UserIdentity.UNVERIFIED ->
         snd (UserIdentity.request_verification i) = Return tt
         /\ UserIdentity.get_verification_status
              (fst (UserIdentity.request_verification i)) = UserIdentity.PENDING)
        /\ (UserIdentity.get_verification_status i <> UserIdentity.UNVERIFIED ->
            exists e, UserIdentity.request_verification i = (i, Raise e)
                      /\ kind e = InvalidStateTransition))
  /\ (forall i,
        (UserIdentity.get_verification_status i = UserIdentity.PENDING ->
         snd (UserIdentity.verify i) = Return tt
         /\ UserIdentity.get_verification_status (fst (UserIdentity.verify i))
            = UserIdentity.VERIFIED)
        /\ (UserIdentity.get_verification_status i <> UserIdentity.PENDING ->
            exists e, UserIdentity.verify i = (i, Raise e)
                      /\ kind e = InvalidStateTransition))
  /\ (forall now u,
        snd (SecureUser.request_verification now u) =
          snd (UserIdentity.request_verification (SecureUser._identity u))
        /\ SecureUser._identity (fst (SecureUser.request_verification now u)) =
           fst (UserIdentity.request_verification (SecureUser._identity u))
        /\ snd (SecureUser.verify_identity now u) =
           snd (UserIdentity.verify (SecureUser._identity u))
        /\ SecureUser._identity (fst (SecureUser.verify_identity now u)) =
           fst (UserIdentity.verify (SecureUser._identity u)))
  /\ (forall now op u,
        status u = UserIdentity.VERIFIED ->
        status (fst (SecureUser.call now op u)) = UserIdentity.VERIFIED).
Proof.
  split; [|split; [|split; [|split]]].
  - intros now username email phone u Hu.
    apply account_init_returns in Hu as (i & Hi & ->).
    apply identity_init_returns in Hi as (_ & _ & ->). split; reflexivity.
  - intros i. unfold UserIdentity.get_verification_status.
    destruct (request_verification_cases i) as [[Hs ->]|(Hs & e & Hk & ->)]; split;
      simpl; solve [auto | tauto | intros _; eauto].
  - intros i. unfold UserIdentity.get_verification_status.
    destruct (verify_cases i) as [[Hs ->]|(Hs & e & Hk & ->)]; split;
      simpl; solve [auto | tauto | intros _; eauto].
  - intros now u.
    destruct (request_verification_delegates now u) as (? & _ & ?).
    destruct (verify_identity_delegates now u) as (? & _ & ?). auto.
  - intros now op u. apply call_keeps_verified.
Qed.

(** C2 at the account [alice], fresh and verified. *)
Lemma C2_verification_state_machine_witness :
  (SecureUser.st_verification_status (SecureUser.identity_status alice) =
     UserIdentity.UNVERIFIED
   /\ SecureUser.st_permissions (SecureUser.identity_status alice) = [])
  /\ (snd (UserIdentity.request_verification (SecureUser._identity alice)) = Return tt
      /\ UserIdentity.get_verification_status
           (fst (UserIdentity.request_verification (SecureUser._identity alice)))
         = UserIdentity.PENDING)
  /\ (exists e, UserIdentity.verify (SecureUser._identity alice) =
                  (SecureUser._identity alice, Raise e)
                /\ kind e = InvalidStateTransition)
  /\ status (fst (SecureUser.call "t3" SecureUser.RequestVerification alice_verified))
     = UserIdentity.VERIFIED.
Proof.
  destruct C2_verification_state_machine as (Hinit & Hreq & Hver & _ & Hterm).
  split; [apply (Hinit "t0" "alice" "alice@x.com" "+1-555-000-0000"); vm_compute;
          reflexivity|].
  split; [apply Hreq; reflexivity|].
  split; [apply Hver; vm_compute; discriminate|].
  apply Hterm. reflexivity.
Defined.

(** C3.  A call that fails leaves what it was about as it was.  A failed
    [set_email] or [update_email] keeps the email, a failed
    [request_verification] or [verify] keeps the status, a denied grant
    keeps the permissions; in fact every failed call of the account keeps
    the whole identity and all permissions, so any call made afterwards
    has the outcome it would have had before the failed attempt. *)
Theorem C3_failed_calls_change_nothing :
  (forall new_email i e,
      snd (UserIdentity.set_email new_email i) = Raise e ->
      UserIdentity.get_email (fst (UserIdentity.set_email new_email i)) =
        UserIdentity.get_email i)
  /\ (forall now new_email u e,
        snd (SecureUser.update_email now new_email u) = Raise e ->
        UserIdentity.get_email
          (SecureUser._identity (fst (SecureUser.update_email now new_email u))) =
        UserIdentity.get_email (SecureUser._identity u))
  /\ (forall i e,
        snd (UserIdentity.request_verification i) = Raise e ->
        UserIdentity.get_verification_status
          (fst (UserIdentity.request_verification i)) =
        UserIdentity.get_verification_status i)
  /\ (forall i e,
        snd (UserIdentity.verify i) = Raise e ->
        UserIdentity.get_verification_status (fst (UserIdentity.verify i)) =
        UserIdentity.get_verification_status i)
  /\ (forall name flag a e,
        snd (AccountAccess.add_permission name flag a) = Raise e ->
        fst (AccountAccess.add_permission name flag a) = a)
  /\ (forall now name u e,
        snd (SecureUser.grant_permission now name u) = Raise e ->
        permissions (fst (SecureUser.grant_permission now name u)) = permissions u)
  /\ (forall now op u e,
        snd (SecureUser.call now op u) = Raise e ->
        SecureUser._identity (fst (SecureUser.call now op u)) = SecureUser._identity u
        /\ SecureUser.__access (fst (SecureUser.call now op u)) = SecureUser.__access u
        /\ forall now' op',
             snd (SecureUser.call now' op' (fst (SecureUser.call now op u))) =
             snd (SecureUser.call now' op' u)).
Proof.
  split; [|split; [|split; [|split; [|split; [|split]]]]].
  - intros m i e.
    destruct (set_email_cases m i) as [[_ ->]|(e' & _ & _ & ->)]; simpl;
      [discriminate | reflexivity].
  - intros now m u e H.
    destruct (call_failure_frame now (SecureUser.UpdateEmail m) u e H) as [Hi _].
    simpl in Hi. now rewrite Hi.
  - intros i e.
    destruct (request_verification_cases i) as [[_ ->]|(_ & e' & _ & ->)]; simpl;
      [discriminate | reflexivity].
  - intros i e.
    destruct (verify_cases i) as [[_ ->]|(_ & e' & _ & ->)]; simpl;
      [discriminate | reflexivity].
  - intros name flag a e.
    destruct (add_permission_cases name flag a)
      as [(_ & _ & e' & _ & ->)|[(_ & _ & ->)|(_ & _ & ->)]]; simpl;
      [reflexivity | discriminate..].
  - intros now name u e H.
    destruct (call_failure_frame now (SecureUser.GrantPermission name) u e H)
      as [_ Ha].
    simpl in Ha. unfold permissions. now rewrite Ha.
  - intros now op u e H.
    destruct (call_failure_frame now op u e H) as [Hi Ha].
    split; [exact Hi|]. split; [exact Ha|]. intros now' op'.
    now apply call_extensional.
Qed.

(** C3 at the account [alice]: a rejected email, a denied grant, and a
    retry with a valid email. *)
Lemma C3_failed_calls_change_nothing_witness :
  UserIdentity.get_email
    (SecureUser._identity (fst (SecureUser.update_email "t1" "invalid-email-format" alice)))
  = Some "alice@x.com"
  /\ permissions (fst (SecureUser.grant_permission "t1" "WITHDRAW" alice)) = []
  /\ snd (SecureUser.call "t2" (SecureUser.UpdateEmail "alice@y.org")
            (fst (SecureUser.call "t1" (SecureUser.UpdateEmail "invalid-email-format")
                    alice)))
     = Return tt.
Proof.
  destruct C3_failed_calls_change_nothing as (_ & Hmail & _ & _ & _ & Hgrant & Hcall).
  split; [|split].
  - rewrite (Hmail "t1" "invalid-email-format" alice
               {| kind := ValidationError;
                  message := "Invalid email format: invalid-email-format" |});
      [reflexivity | vm_compute; reflexivity].
  - rewrite (Hgrant "t1" "WITHDRAW" alice
               {| kind := PermissionDenied;
                  message := "Cannot grant 'WITHDRAW' permission. User must be VERIFIED to receive restricted permissions." |});
      [reflexivity | vm_compute; reflexivity].
  - destruct (Hcall "t1" (SecureUser.UpdateEmail "invalid-email-format") alice
               {| kind := ValidationError;
                  message := "Invalid email format: invalid-email-format" |})
      as (_ & _ & Hretry); [vm_compute; reflexivity|].
    rewrite Hretry. vm_compute. reflexivity.
Defined.

(** C4, as stated, fails at construction: the constructor of the account
    raises the validation error of the identity before any audit log
    exists, so the caller gets the error and no entry records it. *)
Lemma C4_construction_error_not_audited :
  exists e,
    SecureUser.__init__ "t0" "jane_doe" "invalid.email" "+1-555-999-8888" = Raise e
    /\ kind e = ValidationError
    /\ SecureUser.audit_log_after_init
         (SecureUser.__init__ "t0" "jane_doe" "invalid.email" "+1-555-999-8888") = []
    /\ ~ audited []
           (SecureUser.audit_log_after_init
              (SecureUser.__init__ "t0" "jane_doe" "invalid.email" "+1-555-999-8888"))
           e.
Proof.
  exists {| kind := ValidationError;
            message := "Invalid email format: invalid.email" |}.
  split; [vm_compute; reflexivity|]. split; [reflexivity|].
  split; [vm_compute; reflexivity|].
  intros (entry & H & _). vm_compute in H. discriminate H.
Qed.

(** C4, amended.  Every error raised by an operation on an existing account
    is one of the three kinds, and the account first appends exactly one
    audit entry, stamped with the time of the call, naming the failed action
    and giving the message of the error; the caller then receives the very
    error the delegate raised.  A validation error raised by the
    constructor reaches the caller without any audit entry: no account and
    no log exist at that point. *)
Theorem C4_operation_errors_audited :
  (forall now op u e,
      snd (SecureUser.call now op u) = Raise e ->
      SecureUser.get_audit_log (fst (SecureUser.call now op u)) =
        (SecureUser.get_audit_log u
         ++ [{| SecureUser.timestamp := now;
                SecureUser.action := failure_action op;
                SecureUser.details := failure_details op e |}])%list
      /\ audited (SecureUser.get_audit_log u)
           (SecureUser.get_audit_log (fst (SecureUser.call now op u))) e)
  /\ (forall now u name m,
        snd (SecureUser.grant_permission now name u) =
          snd (AccountAccess.add_permission name
                 (Some (UserIdentity.status_eqb (status u) UserIdentity.VERIFIED))
                 (SecureUser.__access u))
        /\ snd (SecureUser.request_verification now u) =
           snd (UserIdentity.request_verification (SecureUser._identity u))
        /\ snd (SecureUser.verify_identity now u) =
           snd (UserIdentity.verify (SecureUser._identity u))
        /\ snd (SecureUser.update_email now m u) =
           snd (UserIdentity.set_email m (SecureUser._identity u)))
  /\ (forall now op u e,
        snd (SecureUser.call now op u) = Raise e ->
        match op with
        | SecureUser.GrantPermission _ => kind e = PermissionDenied
        | SecureUser.RevokePermission _ => False
        | SecureUser.RequestVerification | SecureUser.VerifyIdentity =>
            kind e = InvalidStateTransition
        | SecureUser.UpdateEmail _ => kind e = ValidationError
        end)
  /\ (forall now username email phone e,
        SecureUser.__init__ now username email phone = Raise e ->
        kind e = ValidationError
        /\ SecureUser.audit_log_after_init
             (SecureUser.__init__ now username email phone) = []).
Proof.
  split; [|split; [|split]].
  - intros now op u e H. unfold SecureUser.get_audit_log.
    rewrite (call_failure_entry now op u e H). split; [reflexivity|].
    eexists. split; [reflexivity|]. unfold records_failure. simpl.
    destruct op as [p|p| | |m]; simpl.
    + exists ("Permission: " ++ p ++ ", Reason: "). now rewrite !append_assoc.
    + pose proof (revoke_permission_delegates now p u) as (_ & _ & Hr).
      simpl in H. congruence.
    + now exists EmptyString.
    + now exists EmptyString.
    + now exists EmptyString.
  - intros now u name m.
    pose proof (grant_permission_delegates now name u) as (_ & _ & ?).
    pose proof (request_verification_delegates now u) as (_ & _ & ?).
    pose proof (verify_identity_delegates now u) as (_ & _ & ?).
    pose proof (update_email_delegates now m u) as (_ & _ & ?). auto.
  - intros now op u e H.
    pose proof (call_delegates now op u) as Hd. cbv zeta in Hd.
    destruct op as [p|p| | |m]; destruct Hd as (_ & _ & Hr); rewrite Hr in H.
    + destruct (add_permission_cases p
                  (Some (UserIdentity.status_eqb (status u) UserIdentity.VERIFIED))
                  (SecureUser.__access u))
        as [(_ & _ & e' & Hk & He)|[(_ & _ & He)|(_ & _ & He)]];
        rewrite He in H; simpl in H; congruence.
    + discriminate.
    + destruct (request_verification_cases (SecureUser._identity u))
        as [[_ He]|(_ & e' & Hk & He)]; rewrite He in H; simpl in H; congruence.
    + destruct (verify_cases (SecureUser._identity u))
        as [[_ He]|(_ & e' & Hk & He)]; rewrite He in H; simpl in H; congruence.
    + destruct (set_email_cases m (SecureUser._identity u))
        as [[_ He]|(e' & Hk & _ & He)]; rewrite He in H; simpl in H; congruence.
  - intros now username email phone e H. rewrite H. split; [|reflexivity].
    unfold SecureUser.__init__ in H.
    destruct (UserIdentity.__init__ username email phone) as [i|e'] eqn:Hi;
      [discriminate|].
    injection H as <-. eapply identity_init_raises, Hi.
Qed.

(** C4 at the account [alice], for a denied grant, and at a construction
    with an invalid phone number. *)
Lemma C4_operation_errors_audited_witness :
  SecureUser.get_audit_log (fst (SecureUser.call "t1" (SecureUser.GrantPermission "WITHDRAW") alice))
  = (SecureUser.get_audit_log alice
     ++ [{| SecureUser.timestamp := "t1";
            SecureUser.action := "Permission grant FAILED";
            SecureUser.details :=
              "Permission: WITHDRAW, Reason: Cannot grant 'WITHDRAW' permission. User must be VERIFIED to receive restricted permissions." |}])%list
  /\ SecureUser.audit_log_after_init
       (SecureUser.__init__ "t0" "jane_doe" "jane@example.com" "123-456") = [].
Proof.
  destruct C4_operation_errors_audited as (Hop & _ & _ & Hinit). split.
  - apply (Hop "t1" (SecureUser.GrantPermission "WITHDRAW") alice
             {| kind := PermissionDenied;
                message := "Cannot grant 'WITHDRAW' permission. User must be VERIFIED to receive restricted permissions." |}).
    vm_compute. reflexivity.
  - apply (Hinit "t0" "jane_doe" "jane@example.com" "123-456"
             {| kind := ValidationError;
                message := "Invalid phone format: 123-456. Expected format: +X-XXX-XXX-XXXX" |}).
    vm_compute. reflexivity.
Defined.

(** C5, at the input on which the source departs from the rule.  The
    pattern ends in [$], and [$] also holds just before a final newline:
    ["john@site.com"] followed by a newline passes [__validate_email],
    although it does not have the shape [local@domain.tld] (its last
    character is no letter); the constructor and [update_email] store it.
    The four sample addresses behave as the rule says. *)
Theorem C5_email_with_final_newline_accepted :
  UserIdentity.__validate_email john_newline = Return john_newline
  /\ ~ Wording.email_shape (list_ascii_of_string john_newline)
  /\ (exists i,
        UserIdentity.__init__ "john" john_newline "+1-555-123-4567" = Return i
        /\ UserIdentity.get_email i = Some john_newline)
  /\ UserIdentity.get_email
       (SecureUser._identity (fst (SecureUser.update_email "t1" john_newline alice)))
     = Some john_newline
  /\ UserIdentity.__validate_email "john@site.com" = Return "john@site.com"
  /\ raised (UserIdentity.__validate_email "invalid.email") = true
  /\ raised (UserIdentity.__validate_email "no-at-sign.com") = true
  /\ raised (UserIdentity.__validate_email "a@b") = true.
Proof.
  split; [vm_compute; reflexivity|]. split.
  - intros H. apply email_pattern_shape in H. vm_compute in H. discriminate H.
  - split; [eexists; split; vm_compute; reflexivity|].
    repeat split; vm_compute; reflexivity.
Qed.

(** C6, at the input on which the source departs from the rule.  The
    characters after the [+] are tested with [str.isdigit], which is also
    true of the superscript two: the number [+1555123456] followed by a
    superscript two passes [__validate_phone] and is stored by the
    constructor, although its last character is no digit of a phone number
    (it has nine digits where the check announces ten to fifteen).
    Everything else is as the rule says: a number of the stated shape is
    accepted, an ASCII number is accepted exactly when it has that shape, a
    rejected number raises a validation error, the two samples and the
    numbers of 17 or more digits behave as stated, and no operation of the
    identity or of the account changes the stored number. *)
Theorem C6_phone_with_superscript_digit_accepted :
  UserIdentity.__validate_phone superscript_phone = Return superscript_phone
  /\ ~ Wording.phone_shape (list_ascii_of_string superscript_phone)
  /\ (exists i,
        UserIdentity.__init__ "john" "john@site.com" superscript_phone = Return i
        /\ UserIdentity.get_phone_number i = Some superscript_phone)
  /\ (forall phone,
        Wording.phone_shape (list_ascii_of_string phone) ->
        UserIdentity.__validate_phone phone = Return phone)
  /\ (forall phone,
        is_ascii phone = true ->
        (UserIdentity.__validate_phone phone = Return phone <->
         Wording.phone_shape (list_ascii_of_string phone)))
  /\ (forall phone,
        UserIdentity.__validate_phone phone <> Return phone ->
        exists e, UserIdentity.__validate_phone phone = Raise e
                  /\ kind e = ValidationError)
  /\ UserIdentity.__validate_phone "+1-555-123-4567" = Return "+1-555-123-4567"
  /\ raised (UserIdentity.__validate_phone "123-456") = true
  /\ (forall rest,
        17 <= length (List.filter is_digit (list_ascii_of_string rest)) ->
        raised (UserIdentity.__validate_phone (String "+" rest)) = true)
  /\ (forall username email phone i,
        UserIdentity.__init__ username email phone = Return i ->
        UserIdentity.get_phone_number i = Some phone)
  /\ (forall i m,
        UserIdentity.get_phone_number (fst (UserIdentity.set_email m i)) =
          UserIdentity.get_phone_number i
        /\ UserIdentity.get_phone_number (fst (UserIdentity.request_verification i)) =
           UserIdentity.get_phone_number i
        /\ UserIdentity.get_phone_number (fst (UserIdentity.verify i)) =
           UserIdentity.get_phone_number i)
  /\ (forall now op u,
        UserIdentity.get_phone_number
          (SecureUser._identity (fst (SecureUser.call now op u))) =
        UserIdentity.get_phone_number (SecureUser._identity u)).
Proof.
  split; [vm_compute; reflexivity|]. split.
  { intros (rest & Hcs & Hd & _). vm_compute in Hcs. injection Hcs as <-.
    vm_compute in Hd. discriminate Hd. }
  split; [eexists; split; vm_compute; reflexivity|].
  split; [intros phone H; now apply validate_phone_accepts, phone_shape_accepted|].
  split.
  { intros phone Ha. rewrite validate_phone_accepts. split.
    - now apply accepted_phone_ascii.
    - apply phone_shape_accepted. }
  split.
  { intros phone Hn. destruct (validate_phone_cases phone) as [H|H]; [tauto|].
    eexists. split; [exact H | reflexivity]. }
  split; [vm_compute; reflexivity|]. split; [vm_compute; reflexivity|].
  split; [|split; [|split]].
  - intros rest Hlen.
    destruct (validate_phone_cases (String "+" rest)) as [H|H];
      [|now rewrite H].
    apply validate_phone_accepts in H as (r & [= <-] & _ & Hr).
    pose proof (digits_survive_stripping (list_ascii_of_string rest)). lia.
  - intros username email phone i Hi.
    apply identity_init_returns in Hi as (_ & _ & ->). reflexivity.
  - intros i m. split; [|split].
    + destruct (set_email_cases m i) as [[_ ->]|(e & _ & _ & ->)]; reflexivity.
    + destruct (request_verification_cases i) as [[_ ->]|(_ & e & _ & ->)];
        reflexivity.
    + destruct (verify_cases i) as [[_ ->]|(_ & e & _ & ->)]; reflexivity.
  - intros now op u. apply call_keeps_phone.
Qed.

(** C7.  Every call of an account operation (grant, revoke, request
    verification, verify, update email) appends exactly one entry to the
    audit log, stamped with the time of the call, whether it returns or
    raises; a successful construction leaves a log of one entry.  After any
    sequence of calls the earlier log is a prefix of the later one and the
    new entries are in the order of the calls.  In the end-to-end scenario
    the second call raises [PermissionDenied], the other four return, the
    permissions end as [VIEW], [WITHDRAW], and the log holds six entries. *)
Theorem C7_audit_log_growth :
  (forall now op u,
      exists entry,
        SecureUser.get_audit_log (fst (SecureUser.call now op u)) =
          (SecureUser.get_audit_log u ++ [entry])%list
        /\ SecureUser.timestamp entry = now)
  /\ (forall now username email phone u,
        SecureUser.__init__ now username email phone = Return u ->
        exists entry,
          SecureUser.get_audit_log u = [entry] /\ SecureUser.timestamp entry = now)
  /\ (forall calls u,
        exists entries,
          SecureUser.get_audit_log (SecureUser.call_all calls u) =
            (SecureUser.get_audit_log u ++ entries)%list
          /\ map SecureUser.timestamp entries = map fst calls)
  /\ (SecureUser.__init__ "t0" "alice" "alice@x.com" "+1-555-000-0000" = Return alice
      /\ outcomes scenario alice =
         [Return tt;
          Raise {| kind := PermissionDenied;
                   message := "Cannot grant 'WITHDRAW' permission. User must be VERIFIED to receive restricted permissions." |};
          Return tt; Return tt; Return tt]
      /\ permissions (SecureUser.call_all scenario alice) = ["VIEW"; "WITHDRAW"]
      /\ length (SecureUser.get_audit_log (SecureUser.call_all scenario alice)) = 6).
Proof.
  split; [|split; [|split]].
  - intros now op u. destruct (call_appends_entry now op u) as (entry & H1 & H2 & _).
    eauto.
  - intros now username email phone u Hu.
    apply account_init_returns in Hu as (i & _ & ->). eexists. split; reflexivity.
  - intros calls. induction calls as [|[now op] calls IH]; intros u.
    + exists []. split; [now rewrite app_nil_r | reflexivity].
    + destruct (call_appends_entry now op u) as (entry & H1 & H2 & _).
      destruct (IH (fst (SecureUser.call now op u))) as (entries & H3 & H4).
      exists (entry :: entries). unfold SecureUser.get_audit_log in *. simpl.
      rewrite H3, H1, <- app_assoc. split; [reflexivity | congruence].
  - repeat split; vm_compute; reflexivity.
Qed.

(** C7 at the construction of [alice]. *)
Lemma C7_audit_log_growth_witness :
  exists entry,
    SecureUser.get_audit_log alice = [entry] /\ SecureUser.timestamp entry = "t0".
Proof.
  destruct C7_audit_log_growth as (_ & Hinit & _).
  apply (Hinit "t0" "alice" "alice@x.com" "+1-555-000-0000").
  vm_compute. reflexivity.
Defined.

(** C8, at the input on which the source departs from the rule.
    [get_audit_log] copies the list, not the dictionaries in it: the copy
    holds references to the very entries of the account.  A caller who
    writes [log = user.get_audit_log(); log[0]["action"] = "tampered"]
    changes the first entry of the account, and every later
    [get_audit_log] shows ["tampered"] where ["SecureUser created"] was
    recorded. *)
Theorem C8_audit_entries_are_shared :
  let σ := [Aliased.PyList [];
            Aliased.PyList [Aliased.VRef 2];
            Aliased.PyDict [("timestamp", Aliased.VStr "t0");
                            ("action", Aliased.VStr "SecureUser created");
                            ("details", Aliased.VStr "Username: alice")]] in
  let u := {| Aliased._identity := SecureUser._identity alice;
              Aliased.__permissions := 0;
              Aliased.__audit_log := 1 |} in
  Aliased.__init__ "t0" "alice" "alice@x.com" "+1-555-000-0000" [] = Return (σ, u)
  /\ Aliased.audit_log_view u σ = map Some (SecureUser.get_audit_log alice)
  /\ Aliased.audit_log_view u σ =
     [Some {| SecureUser.timestamp := "t0";
              SecureUser.action := "SecureUser created";
              SecureUser.details := "Username: alice" |}]
  /\ Aliased.audit_log_view u (Aliased.tamper_first_entry "action" "tampered" u σ) =
     [Some {| SecureUser.timestamp := "t0";
              SecureUser.action := "tampered";
              SecureUser.details := "Username: alice" |}].
Proof. cbv zeta. repeat split; vm_compute; reflexivity. Qed.

(** C9.  Called with the flag true, [add_permission] never raises, whatever
    the name; a caller that leaves the flag out gets the default, true, and
    so obtains any permission, restricted ones included.  When
    [add_permission] does raise, the flag given was false and the error is
    [PermissionDenied] (and an ASCII name is then a restricted one).  The
    denial of a restricted permission to an unverified account comes only
    from the flag that [grant_permission] computes and passes. *)
Theorem C9_add_permission_trusts_flag :
  (forall name a, snd (AccountAccess.add_permission name (Some true) a) = Return tt)
  /\ (forall name a,
        AccountAccess.add_permission name None a =
        AccountAccess.add_permission name (Some true) a)
  /\ (forall name a,
        AccountAccess.has_permission name
          (fst (AccountAccess.add_permission name None a)) = true)
  /\ (forall name flag a e,
        snd (AccountAccess.add_permission name flag a) = Raise e ->
        flag = Some false /\ kind e = PermissionDenied
        /\ (is_ascii name = true -> restricted name))
  /\ (forall now name u,
        restricted name -> status u <> UserIdentity.VERIFIED ->
        raised (snd (SecureUser.grant_permission now name u)) = true
        /\ snd (AccountAccess.add_permission name None (SecureUser.__access u)) =
           Return tt
        /\ AccountAccess.has_permission name
             (fst (AccountAccess.add_permission name None (SecureUser.__access u)))
           = true).
Proof.
  assert (forall name a,
             snd (AccountAccess.add_permission name (Some true) a) = Return tt) as Hok.
  { intros name a.
    destruct (add_permission_cases name (Some true) a)
      as [(_ & [=] & _)|[(_ & _ & ->)|(_ & _ & ->)]]; reflexivity. }
  assert (forall name a,
             AccountAccess.has_permission name
               (fst (AccountAccess.add_permission name None a)) = true) as Hhas.
  { intros name a. apply add_permission_has. apply (Hok name a). }
  split; [exact Hok|]. split; [reflexivity|]. split; [exact Hhas|]. split.
  - intros name flag a e.
    destruct (add_permission_cases name flag a)
      as [(Hr & -> & e' & Hk & ->)|[(_ & _ & ->)|(_ & _ & ->)]]; simpl;
      [intros [= <-]; auto | discriminate..].
  - intros now name u Hr Hs.
    destruct (grant_permission_delegates now name u) as (_ & _ & Hd).
    cbv zeta in Hd. rewrite Hd, (is_verified_false _ Hs).
    split; [|split; [apply (Hok name) | apply Hhas]].
    destruct (add_permission_cases name (Some false) (SecureUser.__access u))
      as [(_ & _ & e & _ & ->)|[(Hn & _)|(Hn & _)]]; [reflexivity | tauto..].
Qed.

(** C9 at the account [alice] and the name [withdraw]. *)
Lemma C9_add_permission_trusts_flag_witness :
  raised (snd (SecureUser.grant_permission "t1" "withdraw" alice)) = true
  /\ snd (AccountAccess.add_permission "withdraw" None (SecureUser.__access alice)) =
     Return tt
  /\ AccountAccess.has_permission "withdraw"
       (fst (AccountAccess.add_permission "withdraw" None (SecureUser.__access alice)))
     = true.
Proof.
  destruct C9_add_permission_trusts_flag as (_ & _ & _ & _ & H).
  apply (H "t1" "withdraw" alice); [right; reflexivity | vm_compute; discriminate].
Defined.

(** C10.  Every stored permission equals its own uppercasing: this holds
    for the empty set, is preserved by [add_permission] and
    [remove_permission], and so holds in every account built by the
    constructor and used through its operations.  For an ASCII name,
    [has_permission] answers true exactly when the uppercased name is
    stored, and [remove_permission] answers true exactly when the
    uppercased name was stored and then takes it out.  For every name, a
    removal that answers true makes the set one shorter and the name is
    gone afterwards (it is stored at most once); a removal that answers
    false leaves the set as it was. *)
Theorem C10_permissions_uppercase :
  uppercase (AccountAccess.get_permissions AccountAccess.__init__)
  /\ (forall name flag a,
        uppercase (AccountAccess.get_permissions a) ->
        uppercase (AccountAccess.get_permissions
                     (fst (AccountAccess.add_permission name flag a))))
  /\ (forall name a,
        uppercase (AccountAccess.get_permissions a) ->
        uppercase (AccountAccess.get_permissions
                     (fst (AccountAccess.remove_permission name a))))
  /\ (forall u, SecureUser.reachable u -> uppercase (permissions u) /\ NoDup (permissions u))
  /\ (forall name a,
        is_ascii name = true ->
        (AccountAccess.has_permission name a = true <->
         upper name ∈ AccountAccess.get_permissions a))
  /\ (forall name a,
        is_ascii name = true ->
        (snd (AccountAccess.remove_permission name a) = true <->
         upper name ∈ AccountAccess.get_permissions a))
  /\ (forall name a,
        snd (AccountAccess.remove_permission name a) = true ->
        S (length (AccountAccess.get_permissions
                     (fst (AccountAccess.remove_permission name a)))) =
          length (AccountAccess.get_permissions a)
        /\ (NoDup (AccountAccess.get_permissions a) ->
            AccountAccess.has_permission name
              (fst (AccountAccess.remove_permission name a)) = false)
        /\ (is_ascii name = true ->
            AccountAccess.get_permissions
              (fst (AccountAccess.remove_permission name a)) =
            list_remove (upper name) (AccountAccess.get_permissions a)))
  /\ (forall name a,
        snd (AccountAccess.remove_permission name a) = false ->
        fst (AccountAccess.remove_permission name a) = a)
  /\ (forall now name u,
        SecureUser.reachable u ->
        AccountAccess.has_permission name
          (SecureUser.__access (fst (SecureUser.revoke_permission now name u))) = false).
Proof.
  unfold AccountAccess.get_permissions.
  assert (forall name a,
             snd (AccountAccess.remove_permission name a) = true ->
             NoDup (AccountAccess.__permissions a) ->
             AccountAccess.has_permission name
               (fst (AccountAccess.remove_permission name a)) = false) as Hgone.
  { intros name a.
    destruct (remove_permission_cases name a) as [[Hin ->]|[Hnin ->]]; simpl;
      [intros _ Hd | discriminate].
    apply contains_false. simpl. now apply list_remove_NoDup. }
  split; [constructor|]. split; [|split; [|split; [|split; [|split; [|split; [|split]]]]]].
  - intros name flag a Hu.
    destruct (add_permission_cases name flag a)
      as [(_ & _ & e & _ & ->)|[(_ & _ & ->)|(_ & _ & ->)]]; simpl; try assumption.
    apply Forall_app. split; [assumption|].
    constructor; [apply upper_idem | constructor].
  - intros name a Hu.
    destruct (remove_permission_cases name a) as [[_ ->]|[_ ->]]; simpl;
      [|assumption].
    unfold uppercase in *. rewrite Forall_forall in *.
    intros x Hx. apply Hu. eapply list_remove_elem_of, Hx.
  - intros u Hu. apply reachable_canonical in Hu. exact Hu.
  - intros name a _. apply has_permission_elem_of.
  - intros name a _.
    destruct (remove_permission_cases name a) as [[Hin ->]|[Hnin ->]]; simpl;
      (split; [try discriminate; auto | intros ?; try reflexivity; tauto]).
  - intros name a H. split; [|split; [now apply Hgone | intros _]];
      destruct (remove_permission_cases name a) as [[Hin Hr]|[Hnin Hr]];
      rewrite Hr in *; simpl in *; try discriminate; try reflexivity.
    now apply list_remove_length.
  - intros name a.
    destruct (remove_permission_cases name a) as [[Hin ->]|[Hnin ->]]; simpl;
      [discriminate | reflexivity].
  - intros now name u Hu. apply reachable_canonical in Hu as [_ Hd].
    destruct (revoke_permission_delegates now name u) as (_ & -> & _).
    destruct (snd (AccountAccess.remove_permission name (SecureUser.__access u)))
      eqn:Hr; [now apply Hgone|].
    destruct (remove_permission_cases name (SecureUser.__access u))
      as [[Hin He]|[Hnin ->]]; [rewrite He in Hr; discriminate|].
    simpl. now apply contains_false.
Qed.

(** C10 at the account the end-to-end scenario leaves. *)
Lemma C10_permissions_uppercase_witness :
  (uppercase (permissions (SecureUser.call_all scenario alice))
   /\ NoDup (permissions (SecureUser.call_all scenario alice)))
  /\ AccountAccess.has_permission "withdraw"
       (fst (AccountAccess.remove_permission "withdraw"
               (SecureUser.__access (SecureUser.call_all scenario alice)))) = false
  /\ fst (AccountAccess.remove_permission "edit"
            (SecureUser.__access (SecureUser.call_all scenario alice))) =
     SecureUser.__access (SecureUser.call_all scenario alice).
Proof.
  destruct C10_permissions_uppercase as (_ & _ & _ & Hinv & _ & _ & Hrem & Hkeep & _).
  assert (SecureUser.reachable (SecureUser.call_all scenario alice)) as Hreach.
  { unfold scenario. cbn [SecureUser.call_all].
    do 5 apply SecureUser.reachable_call.
    apply (SecureUser.reachable_init "t0" "alice" "alice@x.com" "+1-555-000-0000").
    vm_compute. reflexivity. }
  split; [now apply Hinv|]. split.
  - destruct (Hrem "withdraw"
                (SecureUser.__access (SecureUser.call_all scenario alice)))
      as (_ & Hgone & _); [vm_compute; reflexivity|].
    apply Hgone. now apply Hinv.
  - apply Hkeep. vm_compute. reflexivity.
Defined.

End Claims.

(** * Further properties of the code *)

(** ** Shared facts *)

Section MoreFacts.
Import Py Props.

(** The status after a call, from the status before it. *)
Lemma call_status (now : string) (op : SecureUser.Op) (u : SecureUser.t) :
  status (fst (SecureUser.call now op u)) =
  match op, status u with
  | SecureUser.RequestVerification, UserIdentity.UNVERIFIED => UserIdentity.PENDING
  | SecureUser.VerifyIdentity, UserIdentity.PENDING => UserIdentity.VERIFIED
  | _, s => s
  end.
Proof.
  unfold status, UserIdentity.get_verification_status.
  pose proof (call_delegates now op u) as H. cbv zeta in H.
  destruct op as [p|p| | |m]; destruct H as (-> & _ & _).
  - now destruct (UserIdentity.__verification_status _).
  - now destruct (UserIdentity.__verification_status _).
  - unfold UserIdentity.request_verification.
    destruct (UserIdentity.__verification_status (SecureUser._identity u)) eqn:E;
      simpl; congruence.
  - unfold UserIdentity.verify.
    destruct (UserIdentity.__verification_status (SecureUser._identity u)) eqn:E;
      simpl; congruence.
  - destruct (set_email_cases m (SecureUser._identity u))
      as [[_ ->]|(e & _ & _ & ->)]; simpl;
      now destruct (UserIdentity.__verification_status _).
Qed.

Lemma restricted_elem_of (name : string) :
  upper name ∈ AccountAccess.RESTRICTED_PERMISSIONS <-> restricted name.
Proof. rewrite <- contains_elem_of. apply restricted_contains. Qed.

(** The exact condition under which a call raises. *)
Lemma call_raises_iff (now : string) (op : SecureUser.Op) (u : SecureUser.t) :
  raised (snd (SecureUser.call now op u)) = true <-> refused op u.
Proof.
  pose proof (call_delegates now op u) as H. cbv zeta in H.
  destruct op as [p|p| | |m]; destruct H as (_ & _ & ->); simpl refused.
  - destruct (add_permission_cases p
                (Some (UserIdentity.status_eqb (status u) UserIdentity.VERIFIED))
                (SecureUser.__access u))
      as [(Hr & [= Hf] & e & _ & ->)|[(Hn & _ & ->)|(Hn & _ & ->)]]; simpl.
    + split; [intros _ | reflexivity]. split; [assumption|].
      intros Hs. apply status_eqb_eq in Hs. congruence.
    + split; [discriminate|]. intros [Hr Hs]. exfalso. apply Hn.
      split; [assumption|]. now rewrite is_verified_false.
    + split; [discriminate|]. intros [Hr Hs]. exfalso. apply Hn.
      split; [assumption|]. now rewrite is_verified_false.
  - simpl. split; [discriminate | tauto].
  - destruct (request_verification_cases (SecureUser._identity u))
      as [[Hs ->]|(Hs & e & _ & ->)]; simpl;
      unfold status, UserIdentity.get_verification_status;
      (split; intros H; try discriminate; try reflexivity; tauto).
  - destruct (verify_cases (SecureUser._identity u))
      as [[Hs ->]|(Hs & e & _ & ->)]; simpl;
      unfold status, UserIdentity.get_verification_status;
      (split; intros H; try discriminate; try reflexivity; tauto).
  - destruct (set_email_cases m (SecureUser._identity u))
      as [[Hv ->]|(e & _ & Hv & ->)]; simpl;
      (split; intros H; try discriminate; try reflexivity; congruence).
Qed.

(** A restricted permission is held by verified accounts only. *)
Lemma reachable_restricted_verified (u : SecureUser.t) (p : string) :
  SecureUser.reachable u ->
  p ∈ permissions u -> p ∈ AccountAccess.RESTRICTED_PERMISSIONS ->
  status u = UserIdentity.VERIFIED.
Proof.
  intros Hu. revert p.
  induction Hu as [now username email phone self Hinit | now op self _ IH];
    intros p Hp Hr.
  - apply account_init_returns in Hinit as (i & _ & ->). inversion Hp.
  - unfold permissions, AccountAccess.get_permissions in *.
    rewrite call_status.
    pose proof (call_delegates now op self) as H. cbv zeta in H.
    destruct op as [n|n| | |m]; destruct H as (_ & Ha & _); rewrite Ha in Hp.
    + destruct (add_permission_cases n
                  (Some (UserIdentity.status_eqb (status self) UserIdentity.VERIFIED))
                  (SecureUser.__access self))
        as [(_ & _ & e & _ & He)|[(Hn & _ & He)|(_ & _ & He)]];
        rewrite He in Hp; simpl in Hp; try (now apply (IH p)).
      apply elem_of_app in Hp as [Hp|Hp]; [now apply (IH p)|].
      apply list_elem_of_singleton in Hp. subst p.
      apply restricted_elem_of in Hr.
      destruct (UserIdentity.status_eqb (status self) UserIdentity.VERIFIED) eqn:Hs;
        [now apply status_eqb_eq in Hs | tauto].
    + destruct (remove_permission_cases n (SecureUser.__access self))
        as [[_ He]|[_ He]]; rewrite He in Hp; simpl in Hp;
        [apply list_remove_elem_of in Hp|]; now apply (IH p).
    + now rewrite (IH p Hp Hr).
    + now rewrite (IH p Hp Hr).
    + now apply (IH p).
Qed.

(** The email and the phone number of an account are values the validators
    accept. *)
Lemma reachable_identity_valid (u : SecureUser.t) :
  SecureUser.reachable u ->
  (exists e, UserIdentity.get_email (SecureUser._identity u) = Some e
             /\ UserIdentity.__validate_email e = Return e)
  /\ (exists p, UserIdentity.get_phone_number (SecureUser._identity u) = Some p
                /\ UserIdentity.__validate_phone p = Return p).
Proof.
  induction 1 as [now username email phone self Hinit | now op self _ IH].
  - apply account_init_returns in Hinit as (i & Hi & ->).
    apply identity_init_returns in Hi as (He & Hp & ->). simpl.
    split; eexists; (split; [reflexivity | assumption]).
  - destruct IH as [IHe IHp]. split.
    + pose proof (call_delegates now op self) as H. cbv zeta in H.
      destruct op as [n|n| | |m]; destruct H as (-> & _ & _); try assumption.
      * destruct (request_verification_cases (SecureUser._identity self))
          as [[_ ->]|(_ & e & _ & ->)]; assumption.
      * destruct (verify_cases (SecureUser._identity self))
          as [[_ ->]|(_ & e & _ & ->)]; assumption.
      * destruct (set_email_cases m (SecureUser._identity self))
          as [[Hv ->]|(e & _ & _ & ->)]; [|assumption]. simpl.
        eexists. split; [reflexivity | assumption].
    + destruct (call_keeps_phone now op self) as [-> _]. assumption.
Qed.

Lemma scenario_reachable : SecureUser.reachable (SecureUser.call_all scenario alice).
Proof.
  unfold scenario. cbn [SecureUser.call_all].
  do 5 apply SecureUser.reachable_call.
  apply (SecureUser.reachable_init "t0" "alice" "alice@x.com" "+1-555-000-0000").
  vm_compute. reflexivity.
Qed.

Lemma alice_reachable : SecureUser.reachable alice.
Proof.
  apply (SecureUser.reachable_init "t0" "alice" "alice@x.com" "+1-555-000-0000").
  vm_compute. reflexivity.
Qed.

End MoreFacts.

(** ** Properties beyond the claims *)

Section Extras.
Import Py Props.

Lemma not_raised_returns (r : Exc unit) : raised r = false -> r = Return tt.
Proof. destruct r as [[]|e]; [reflexivity | discriminate]. Qed.

Lemma call_all_keeps_verified (calls : list (string * SecureUser.Op))
    (u : SecureUser.t) :
  status u = UserIdentity.VERIFIED ->
  status (SecureUser.call_all calls u) = UserIdentity.VERIFIED.
Proof.
  revert u. induction calls as [|[now op] calls IH]; intros u Hs; simpl; [exact Hs|].
  apply IH. now apply call_keeps_verified.
Qed.

Lemma pending_verified_iff (calls : list (string * SecureUser.Op))
    (u : SecureUser.t) :
  status u = UserIdentity.PENDING ->
  (status (SecureUser.call_all calls u) = UserIdentity.VERIFIED <->
   exists l2 l3 t, calls = (l2 ++ (t, SecureUser.VerifyIdentity) :: l3)%list).
Proof.
  revert u. induction calls as [|[now op] calls IH]; intros u Hs; simpl.
  - split; [congruence | intros (l2 & l3 & t & H); destruct l2; discriminate].
  - pose proof (call_status now op u) as Hc. rewrite Hs in Hc.
    assert (op = SecureUser.VerifyIdentity \/ op <> SecureUser.VerifyIdentity)
      as [->|Hop] by (destruct op; (now left) || (right; discriminate)).
    + split; [intros _; now exists [], calls, now|].
      intros _. now apply call_all_keeps_verified.
    + assert (status (fst (SecureUser.call now op u)) = UserIdentity.PENDING) as Hp
        by (destruct op; congruence).
      rewrite (IH _ Hp). split.
      * intros (l2 & l3 & t & ->). now exists ((now, op) :: l2), l3, t.
      * intros (l2 & l3 & t & H). destruct l2 as [|h l2]; simpl in H.
        -- congruence.
        -- injection H as _ ->. eauto.
Qed.

(** X1.  An account that is not [VERIFIED] holds no restricted permission:
    on every account built by the constructor and used through its
    operations, [has_permission] answers false for [TRANSFER] and
    [WITHDRAW], in any case, as long as the status is not [VERIFIED]. *)
Theorem X1_unverified_holds_no_restricted (u : SecureUser.t) (name : string) :
  SecureUser.reachable u ->
  status u <> UserIdentity.VERIFIED ->
  restricted name ->
  AccountAccess.has_permission name (SecureUser.__access u) = false.
Proof.
  intros Hu Hs Hr.
  destruct (AccountAccess.has_permission name (SecureUser.__access u)) eqn:Hh;
    [|reflexivity].
  apply has_permission_elem_of in Hh. exfalso. apply Hs.
  apply (reachable_restricted_verified u (upper name) Hu Hh).
  now apply restricted_elem_of.
Qed.

(** X1 at the account [alice] after a denied grant and a request for
    verification. *)
Lemma X1_unverified_holds_no_restricted_witness :
  AccountAccess.has_permission "transfer"
    (SecureUser.__access
       (SecureUser.call_all
          [("t1", SecureUser.GrantPermission "transfer");
           ("t2", SecureUser.RequestVerification)] alice)) = false.
Proof.
  apply X1_unverified_holds_no_restricted.
  - cbn [SecureUser.call_all]. do 2 apply SecureUser.reachable_call.
    apply alice_reachable.
  - vm_compute. discriminate.
  - left. reflexivity.
Defined.

(** X2.  Starting from an [UNVERIFIED] account, a sequence of calls ends in
    [VERIFIED] exactly when it contains a request for verification and,
    somewhere after it, a call of [verify_identity]; calls in between and
    around, failed ones included, do not matter. *)
Theorem X2_verified_iff_requested_then_verified
    (calls : list (string * SecureUser.Op)) (u : SecureUser.t) :
  status u = UserIdentity.UNVERIFIED ->
  (status (SecureUser.call_all calls u) = UserIdentity.VERIFIED <->
   exists l1 l2 l3 t1 t2,
     calls = (l1 ++ (t1, SecureUser.RequestVerification)
                 :: l2 ++ (t2, SecureUser.VerifyIdentity) :: l3)%list).
Proof.
  revert u. induction calls as [|[now op] calls IH]; intros u Hs; simpl.
  - split; [congruence|].
    intros (l1 & l2 & l3 & t1 & t2 & H). destruct l1; discriminate.
  - pose proof (call_status now op u) as Hc. rewrite Hs in Hc.
    assert (op = SecureUser.RequestVerification
            \/ op <> SecureUser.RequestVerification)
      as [->|Hop] by (destruct op; (now left) || (right; discriminate)).
    + rewrite (pending_verified_iff calls _ Hc). split.
      * intros (l2 & l3 & t & ->). now exists [], l2, l3, now, t.
      * intros (l1 & l2 & l3 & t1 & t2 & H). destruct l1 as [|h l1]; simpl in H.
        -- injection H as _ ->. eauto.
        -- injection H as _ ->.
           exists (l1 ++ (t1, SecureUser.RequestVerification) :: l2)%list, l3, t2.
           now rewrite <- app_assoc.
    + assert (status (fst (SecureUser.call now op u)) = UserIdentity.UNVERIFIED) as Hu
        by (destruct op; congruence).
      rewrite (IH _ Hu). split.
      * intros (l1 & l2 & l3 & t1 & t2 & ->).
        now exists ((now, op) :: l1), l2, l3, t1, t2.
      * intros (l1 & l2 & l3 & t1 & t2 & H). destruct l1 as [|h l1]; simpl in H.
        -- congruence.
        -- injection H as _ ->. eauto 6.
Qed.

(** X2 at the end-to-end scenario, which requests at its third call and
    verifies at its fourth. *)
Lemma X2_verified_iff_requested_then_verified_witness :
  status (SecureUser.call_all scenario alice) = UserIdentity.VERIFIED <->
  exists l1 l2 l3 t1 t2,
    scenario = (l1 ++ (t1, SecureUser.RequestVerification)
                   :: l2 ++ (t2, SecureUser.VerifyIdentity) :: l3)%list.
Proof.
  apply (X2_verified_iff_requested_then_verified scenario alice). reflexivity.
Defined.

(** X3.  From any [UNVERIFIED] account the path request, verify, grant
    always goes through: the three calls return, the status is [VERIFIED]
    and the restricted permission asked for is held. *)
Theorem X3_verification_unlocks_restricted (t1 t2 t3 name : string)
    (u : SecureUser.t) :
  status u = UserIdentity.UNVERIFIED ->
  restricted name ->
  outcomes [(t1, SecureUser.RequestVerification); (t2, SecureUser.VerifyIdentity);
            (t3, SecureUser.GrantPermission name)] u
    = [Return tt; Return tt; Return tt]
  /\ status (SecureUser.call_all
               [(t1, SecureUser.RequestVerification); (t2, SecureUser.VerifyIdentity);
                (t3, SecureUser.GrantPermission name)] u) = UserIdentity.VERIFIED
  /\ AccountAccess.has_permission name
       (SecureUser.__access
          (SecureUser.call_all
             [(t1, SecureUser.RequestVerification); (t2, SecureUser.VerifyIdentity);
              (t3, SecureUser.GrantPermission name)] u)) = true.
Proof.
  intros Hs Hr. cbn [outcomes SecureUser.call_all].
  set (u1 := fst (SecureUser.call t1 SecureUser.RequestVerification u)).
  set (u2 := fst (SecureUser.call t2 SecureUser.VerifyIdentity u1)).
  assert (status u1 = UserIdentity.PENDING) as H1
    by (unfold u1; rewrite call_status, Hs; reflexivity).
  assert (status u2 = UserIdentity.VERIFIED) as H2
    by (unfold u2; rewrite call_status, H1; reflexivity).
  assert (snd (SecureUser.call t1 SecureUser.RequestVerification u) = Return tt) as R1.
  { apply not_raised_returns, not_true_iff_false. rewrite call_raises_iff.
    simpl. tauto. }
  assert (snd (SecureUser.call t2 SecureUser.VerifyIdentity u1) = Return tt) as R2.
  { apply not_raised_returns, not_true_iff_false. rewrite call_raises_iff.
    simpl. tauto. }
  assert (snd (SecureUser.call t3 (SecureUser.GrantPermission name) u2) = Return tt)
    as R3.
  { apply not_raised_returns, not_true_iff_false. rewrite call_raises_iff.
    simpl. tauto. }
  split; [now rewrite R1, R2, R3|].
  split; [rewrite call_status; exact H2|].
  simpl SecureUser.call in *.
  destruct (grant_permission_delegates t3 name u2) as (_ & Ha & Hres).
  cbv zeta in Ha, Hres. rewrite Ha. apply add_permission_has. now rewrite <- Hres.
Qed.

(** X3 at the account [alice] and the name [withdraw]. *)
Lemma X3_verification_unlocks_restricted_witness :
  AccountAccess.has_permission "withdraw"
    (SecureUser.__access
       (SecureUser.call_all
          [("t1", SecureUser.RequestVerification); ("t2", SecureUser.VerifyIdentity);
           ("t3", SecureUser.GrantPermission "withdraw")] alice)) = true.
Proof.
  apply (X3_verification_unlocks_restricted "t1" "t2" "t3" "withdraw" alice);
    [reflexivity | right; reflexivity].
Defined.

(** X4.  The status never moves backwards: over any sequence of calls the
    position of the status on the way from [UNVERIFIED] over [PENDING] to
    [VERIFIED] does not decrease, and a single call advances it by at most
    one step. *)
Theorem X4_status_never_moves_back (calls : list (string * SecureUser.Op))
    (u : SecureUser.t) :
  rank (status u) <= rank (status (SecureUser.call_all calls u))
  /\ forall now op,
       rank (status u) <= rank (status (fst (SecureUser.call now op u)))
                       <= S (rank (status u)).
Proof.
  assert (forall now op v,
             rank (status v) <= rank (status (fst (SecureUser.call now op v)))
                             <= S (rank (status v))) as Hstep.
  { intros now op v. rewrite call_status.
    destruct op, (status v); simpl; lia. }
  split; [|intros now op; apply Hstep].
  revert u. induction calls as [|[now op] calls IH]; intros u; simpl; [lia|].
  specialize (IH (fst (SecureUser.call now op u))).
  specialize (Hstep now op u). lia.
Qed.

(** X5.  The identity of an account always holds validated data: on every
    account built by the constructor and used through its operations,
    [identity_status] reports an email and a phone number (never [None]),
    and both are strings their validators accept. *)
Theorem X5_identity_fields_stay_valid (u : SecureUser.t) :
  SecureUser.reachable u ->
  exists e p,
    SecureUser.st_email (SecureUser.identity_status u) = Some e
    /\ SecureUser.st_phone (SecureUser.identity_status u) = Some p
    /\ UserIdentity.__validate_email e = Return e
    /\ UserIdentity.__validate_phone p = Return p.
Proof.
  intros Hu. destruct (reachable_identity_valid u Hu) as [(e & He & Hve) (p & Hp & Hvp)].
  exists e, p. simpl. auto.
Qed.

(** X5 at the account [alice] after a rejected and an accepted change of
    email. *)
Lemma X5_identity_fields_stay_valid_witness :
  exists e p,
    SecureUser.st_email
      (SecureUser.identity_status
         (SecureUser.call_all
            [("t1", SecureUser.UpdateEmail "invalid-email-format");
             ("t2", SecureUser.UpdateEmail "alice@y.org")] alice)) = Some e
    /\ SecureUser.st_phone
         (SecureUser.identity_status
            (SecureUser.call_all
               [("t1", SecureUser.UpdateEmail "invalid-email-format");
                ("t2", SecureUser.UpdateEmail "alice@y.org")] alice)) = Some p
    /\ UserIdentity.__validate_email e = Return e
    /\ UserIdentity.__validate_phone p = Return p.
Proof.
  apply X5_identity_fields_stay_valid.
  cbn [SecureUser.call_all]. do 2 apply SecureUser.reachable_call.
  apply alice_reachable.
Defined.

Lemma count_char_app (c : ascii) (l1 l2 : list ascii) :
  count_char c (l1 ++ l2) = count_char c l1 + count_char c l2.
Proof. unfold count_char. now rewrite List.filter_app, length_app. Qed.

Lemma count_char_excluded (p : ascii -> bool) (c : ascii) (l : list ascii) :
  forallb p l = true -> p c = false -> count_char c l = 0.
Proof.
  intros Hl Hc. induction l as [|a l IH]; [reflexivity|].
  simpl in Hl. apply andb_true_iff in Hl as [Ha Hl].
  unfold count_char in *. simpl.
  destruct (Ascii.eqb c a) eqn:E; [|now apply IH].
  apply Ascii.eqb_eq in E. congruence.
Qed.

Lemma email_shape_facts (cs : list ascii) :
  Wording.email_shape cs ->
  count_char "@" cs = 1 /\ count_char " " cs = 0 /\ 6 <= length cs.
Proof.
  intros (loc & dom & tld & -> & Hl & Hlc & Hd & Hdc & Ht & Htc).
  change (loc ++ "@"%char :: dom ++ "."%char :: tld)%list
    with (loc ++ ["@"%char] ++ dom ++ ["."%char] ++ tld)%list.
  rewrite !count_char_app, !length_app.
  rewrite (count_char_excluded _ "@" loc Hlc), (count_char_excluded _ "@" dom Hdc),
    (count_char_excluded _ "@" tld Htc) by reflexivity.
  rewrite (count_char_excluded _ " " loc Hlc), (count_char_excluded _ " " dom Hdc),
    (count_char_excluded _ " " tld Htc) by reflexivity.
  destruct loc; [congruence|]. destruct dom; [congruence|].
  repeat split; simpl; lia.
Qed.

(** X6.  What every accepted email has: exactly one [@], no space, and at
    least six characters.  In particular an address with two [@] or with a
    blank in it is rejected. *)
Theorem X6_accepted_email_has_one_at (email : string) :
  UserIdentity.__validate_email email = Return email ->
  count_char "@" (list_ascii_of_string email) = 1
  /\ count_char " " (list_ascii_of_string email) = 0
  /\ 6 <= String.length email.
Proof.
  intros H. rewrite <- length_list_ascii.
  apply validate_email_accepts in H as [H|(cs & -> & H)];
    apply email_shape_facts in H as (H1 & H2 & H3).
  - auto.
  - rewrite !count_char_app, length_app. rewrite H1, H2. simpl.
    repeat split; try reflexivity. lia.
Qed.

(** X6 at the email of [alice]. *)
Lemma X6_accepted_email_has_one_at_witness :
  count_char "@" (list_ascii_of_string "alice@x.com") = 1
  /\ count_char " " (list_ascii_of_string "alice@x.com") = 0
  /\ 6 <= String.length "alice@x.com".
Proof.
  apply X6_accepted_email_has_one_at. vm_compute. reflexivity.
Defined.

(** X7.  The separators of a phone number do not matter: two numbers that
    start with [+] and agree once spaces, dashes and parentheses are
    dropped are accepted together or rejected together. *)
Theorem X7_phone_separators_do_not_matter (rest1 rest2 : string) :
  Wording.strip_separators (list_ascii_of_string rest1) =
    Wording.strip_separators (list_ascii_of_string rest2) ->
  (UserIdentity.__validate_phone (String "+" rest1) = Return (String "+" rest1) <->
   UserIdentity.__validate_phone (String "+" rest2) = Return (String "+" rest2)).
Proof.
  intros Heq. rewrite !validate_phone_accepts. unfold accepted_phone. simpl.
  split; intros (r & [= <-] & Hd & Hl); eexists; (split; [reflexivity|]).
  - now rewrite <- Heq.
  - now rewrite Heq.
Qed.

(** X7 at two spellings of one number. *)
Lemma X7_phone_separators_do_not_matter_witness :
  UserIdentity.__validate_phone "+1-555-123-4567" = Return "+1-555-123-4567" <->
  UserIdentity.__validate_phone "+1 (555) 123 4567" = Return "+1 (555) 123 4567".
Proof.
  apply (X7_phone_separators_do_not_matter "1-555-123-4567" "1 (555) 123 4567").
  vm_compute. reflexivity.
Defined.

(** X8.  Granting a permission the account already holds changes nothing
    and is no error: on every account built by the constructor and used
    through its operations the grant returns and the permissions stay as
    they were, restricted permissions included. *)
Theorem X8_regrant_changes_nothing (now name : string) (u : SecureUser.t) :
  SecureUser.reachable u ->
  AccountAccess.has_permission name (SecureUser.__access u) = true ->
  snd (SecureUser.grant_permission now name u) = Return tt
  /\ permissions (fst (SecureUser.grant_permission now name u)) = permissions u.
Proof.
  intros Hu Hh. apply has_permission_elem_of in Hh.
  destruct (grant_permission_delegates now name u) as (_ & Ha & Hr).
  cbv zeta in Ha, Hr. unfold permissions. rewrite Ha, Hr.
  destruct (add_permission_cases name
              (Some (UserIdentity.status_eqb (status u) UserIdentity.VERIFIED))
              (SecureUser.__access u))
    as [(Hres & [= Hf] & _)|[(_ & Hn & _)|(_ & _ & ->)]].
  - exfalso. apply restricted_elem_of in Hres.
    pose proof (reachable_restricted_verified u (upper name) Hu Hh Hres) as Hs.
    rewrite Hs in Hf. discriminate.
  - tauto.
  - auto.
Qed.

(** X8 at the account the end-to-end scenario leaves, which holds
    [WITHDRAW]. *)
Lemma X8_regrant_changes_nothing_witness :
  snd (SecureUser.grant_permission "t6" "withdraw" (SecureUser.call_all scenario alice))
    = Return tt
  /\ permissions
       (fst (SecureUser.grant_permission "t6" "withdraw"
               (SecureUser.call_all scenario alice)))
     = permissions (SecureUser.call_all scenario alice).
Proof.
  apply X8_regrant_changes_nothing; [apply scenario_reachable|].
  vm_compute. reflexivity.
Defined.

Lemma list_remove_app_fresh (x : string) (l : list string) :
  x ∉ l -> list_remove x (l ++ [x]) = l.
Proof.
  induction l as [|y l IH]; simpl; intros Hx.
  - now rewrite String.eqb_refl.
  - apply not_elem_of_cons in Hx as [Hxy Hx].
    destruct (String.eqb y x) eqn:E; [apply String.eqb_eq in E; congruence|].
    now rewrite IH.
Qed.

Lemma contains_snoc (y x : string) (l : list string) :
  contains y (l ++ [x]) = contains y l || String.eqb x y.
Proof.
  induction l as [|z l IH]; simpl; [apply orb_false_r|].
  now rewrite IH, orb_assoc.
Qed.

Lemma contains_list_remove_other (y x : string) (l : list string) :
  x <> y -> contains y (list_remove x l) = contains y l.
Proof.
  intros Hxy. induction l as [|z l IH]; simpl; [reflexivity|].
  destruct (String.eqb z x) eqn:E; simpl.
  - apply String.eqb_eq in E. subst z.
    apply String.eqb_neq in Hxy. now rewrite Hxy.
  - now rewrite IH.
Qed.

(** X9.  Adding a permission that was not held and removing it again gives
    back the access object it started from, and the removal reports
    success.  The name is an ASCII one, so that its uppercasing is the one
    the code computes. *)
Theorem X9_add_then_remove_restores (name : string) (flag : option bool)
    (a : AccountAccess.t) :
  is_ascii name = true ->
  upper name ∉ AccountAccess.get_permissions a ->
  snd (AccountAccess.add_permission name flag a) = Return tt ->
  AccountAccess.remove_permission name (fst (AccountAccess.add_permission name flag a))
  = (a, true).
Proof.
  unfold AccountAccess.get_permissions. intros _ Hn Hok.
  destruct (add_permission_cases name flag a)
    as [(_ & _ & e & _ & He)|[(_ & _ & He)|(_ & Hin & _)]];
    [rewrite He in Hok; discriminate | | tauto].
  rewrite He. simpl. unfold AccountAccess.remove_permission. cbv zeta. simpl.
  rewrite contains_snoc, String.eqb_refl, orb_true_r.
  rewrite (list_remove_app_fresh _ _ Hn). now destruct a.
Qed.

(** X9 at the empty access object and the name [view]. *)
Lemma X9_add_then_remove_restores_witness :
  AccountAccess.remove_permission "view"
    (fst (AccountAccess.add_permission "view" None AccountAccess.__init__))
  = (AccountAccess.__init__, true).
Proof.
  apply X9_add_then_remove_restores; [reflexivity | inversion 1 | reflexivity].
Defined.

(** X10.  Adding or removing one permission leaves every other permission
    alone: for two ASCII names with different uppercasings,
    [has_permission] of the one answers after a call for the other what it
    answered before. *)
Theorem X10_other_permissions_untouched (name name' : string)
    (flag : option bool) (a : AccountAccess.t) :
  is_ascii name = true -> is_ascii name' = true ->
  upper name' <> upper name ->
  AccountAccess.has_permission name'
    (fst (AccountAccess.add_permission name flag a)) =
    AccountAccess.has_permission name' a
  /\ AccountAccess.has_permission name'
       (fst (AccountAccess.remove_permission name a)) =
     AccountAccess.has_permission name' a.
Proof.
  intros _ _ Hne. unfold AccountAccess.has_permission. split.
  - destruct (add_permission_cases name flag a)
      as [(_ & _ & e & _ & ->)|[(_ & _ & ->)|(_ & _ & ->)]]; simpl; try reflexivity.
    rewrite contains_snoc.
    assert (String.eqb (upper name) (upper name') = false) as ->
      by (apply String.eqb_neq; congruence).
    apply orb_false_r.
  - destruct (remove_permission_cases name a) as [[_ ->]|[_ ->]]; simpl;
      [|reflexivity].
    apply contains_list_remove_other. congruence.
Qed.

(** X10 at the permissions the end-to-end scenario leaves: adding [EDIT]
    keeps [WITHDRAW], and a removal of [EDIT] keeps it too. *)
Lemma X10_other_permissions_untouched_witness :
  AccountAccess.has_permission "withdraw"
    (fst (AccountAccess.add_permission "edit" None
            (SecureUser.__access (SecureUser.call_all scenario alice)))) =
    AccountAccess.has_permission "withdraw"
      (SecureUser.__access (SecureUser.call_all scenario alice))
  /\ AccountAccess.has_permission "withdraw"
       (fst (AccountAccess.remove_permission "edit"
               (SecureUser.__access (SecureUser.call_all scenario alice)))) =
     AccountAccess.has_permission "withdraw"
       (SecureUser.__access (SecureUser.call_all scenario alice)).
Proof.
  apply X10_other_permissions_untouched;
    [reflexivity | reflexivity | vm_compute; discriminate].
Defined.

(** X11.  Revoking twice: on every account built by the constructor and
    used through its operations, a second revocation of the same permission
    (in any case) finds nothing.  It does not raise, leaves the permissions
    as the first revocation left them, and its audit entry carries the
    action [Permission revoke failed (not found)]. *)
Theorem X11_second_revoke_finds_nothing (now1 now2 name name' : string)
    (u : SecureUser.t) :
  SecureUser.reachable u ->
  upper name' = upper name ->
  snd (SecureUser.revoke_permission now2 name'
         (fst (SecureUser.revoke_permission now1 name u))) = Return tt
  /\ permissions (fst (SecureUser.revoke_permission now2 name'
                         (fst (SecureUser.revoke_permission now1 name u)))) =
     permissions (fst (SecureUser.revoke_permission now1 name u))
  /\ SecureUser.get_audit_log
       (fst (SecureUser.revoke_permission now2 name'
               (fst (SecureUser.revoke_permission now1 name u)))) =
     (SecureUser.get_audit_log (fst (SecureUser.revoke_permission now1 name u))
      ++ [{| SecureUser.timestamp := now2;
             SecureUser.action := "Permission revoke failed (not found)";
             SecureUser.details := "Permission: " ++ name' |}])%list.
Proof.
  intros Hu Hn.
  set (u1 := fst (SecureUser.revoke_permission now1 name u)).
  assert (upper name' ∉ AccountAccess.__permissions (SecureUser.__access u1)) as Hgone.
  { unfold u1. destruct (revoke_permission_delegates now1 name u) as (_ & -> & _).
    rewrite Hn. apply reachable_canonical in Hu as [_ Hd].
    destruct (remove_permission_cases name (SecureUser.__access u))
      as [[_ ->]|[Hnin ->]]; simpl; [now apply list_remove_NoDup | assumption]. }
  unfold permissions, SecureUser.revoke_permission at 1 2 3.
  destruct (remove_permission_cases name' (SecureUser.__access u1))
    as [[Hin _]|[_ ->]]; [tauto|]. simpl. auto.
Qed.

(** X11 at the account the end-to-end scenario leaves, revoking [VIEW] and
    then [view]. *)
Lemma X11_second_revoke_finds_nothing_witness :
  snd (SecureUser.revoke_permission "t7" "view"
         (fst (SecureUser.revoke_permission "t6" "VIEW"
                 (SecureUser.call_all scenario alice)))) = Return tt
  /\ permissions
       (fst (SecureUser.revoke_permission "t7" "view"
               (fst (SecureUser.revoke_permission "t6" "VIEW"
                       (SecureUser.call_all scenario alice))))) =
     permissions (fst (SecureUser.revoke_permission "t6" "VIEW"
                         (SecureUser.call_all scenario alice)))
  /\ SecureUser.get_audit_log
       (fst (SecureUser.revoke_permission "t7" "view"
               (fst (SecureUser.revoke_permission "t6" "VIEW"
                       (SecureUser.call_all scenario alice))))) =
     (SecureUser.get_audit_log
        (fst (SecureUser.revoke_permission "t6" "VIEW"
                (SecureUser.call_all scenario alice)))
      ++ [{| SecureUser.timestamp := "t7";
             SecureUser.action := "Permission revoke failed (not found)";
             SecureUser.details := "Permission: " ++ "view" |}])%list.
Proof.
  apply X11_second_revoke_finds_nothing; [apply scenario_reachable | reflexivity].
Defined.

(** X12.  The audit log tells failures from successes: the entry a call
    appends carries one of the four actions ending in [FAILED] exactly when
    the call raised.  A revocation that finds nothing is logged, but not
    as one of these: it is no error. *)
Theorem X12_failed_actions_mark_raised_calls (now : string) (op : SecureUser.Op)
    (u : SecureUser.t) :
  exists entry,
    SecureUser.get_audit_log (fst (SecureUser.call now op u)) =
      (SecureUser.get_audit_log u ++ [entry])%list
    /\ (SecureUser.action entry ∈ failure_actions <->
        raised (snd (SecureUser.call now op u)) = true).
Proof.
  assert (forall a : string,
             a ∈ failure_actions <->
             a = "Permission grant FAILED" \/ a = "Verification request FAILED"
             \/ a = "Verification FAILED" \/ a = "Email update FAILED") as Hmem.
  { intros a. unfold failure_actions.
    rewrite !elem_of_cons, elem_of_nil. tauto. }
  unfold SecureUser.get_audit_log.
  destruct op as [p|p| | |m]; simpl.
  - unfold SecureUser.grant_permission. cbv zeta.
    destruct (AccountAccess.add_permission _ _ _) as [a [[]|e]]; simpl;
      eexists; (split; [reflexivity|]); rewrite Hmem; simpl;
      (split; [|try discriminate; auto]); try reflexivity.
    intros [H|[H|[H|H]]]; discriminate H.
  - unfold SecureUser.revoke_permission.
    destruct (AccountAccess.remove_permission _ _) as [a [|]]; simpl;
      eexists; (split; [reflexivity|]); rewrite Hmem; simpl;
      (split; [|discriminate]); intros [H|[H|[H|H]]]; discriminate H.
  - unfold SecureUser.request_verification.
    destruct (UserIdentity.request_verification _) as [i [[]|e]]; simpl;
      eexists; (split; [reflexivity|]); rewrite Hmem; simpl;
      (split; [|try discriminate; auto]); try reflexivity.
    intros [H|[H|[H|H]]]; discriminate H.
  - unfold SecureUser.verify_identity.
    destruct (UserIdentity.verify _) as [i [[]|e]]; simpl;
      eexists; (split; [reflexivity|]); rewrite Hmem; simpl;
      (split; [|try discriminate; auto 6]); try reflexivity.
    intros [H|[H|[H|H]]]; discriminate H.
  - unfold SecureUser.update_email. cbv zeta.
    destruct (UserIdentity.set_email _ _) as [i [[]|e]]; simpl;
      eexists; (split; [reflexivity|]); rewrite Hmem; simpl;
      (split; [|try discriminate; auto 6]); try reflexivity.
    intros [H|[H|[H|H]]]; discriminate H.
Qed.

(** X13.  When each operation raises: [grant_permission], for an ASCII
    name, exactly for a restricted name on an account that is not
    [VERIFIED];
    [request_verification] exactly when the status is not [UNVERIFIED];
    [verify_identity] exactly when it is not [PENDING]; [update_email]
    exactly when the validator rejects the new email; [revoke_permission]
    never. *)
Theorem X13_when_operations_raise (now name m : string) (u : SecureUser.t) :
  (is_ascii name = true ->
   (raised (snd (SecureUser.grant_permission now name u)) = true <->
    restricted name /\ status u <> UserIdentity.VERIFIED))
  /\ raised (snd (SecureUser.revoke_permission now name u)) = false
  /\ (raised (snd (SecureUser.request_verification now u)) = true <->
      status u <> UserIdentity.UNVERIFIED)
  /\ (raised (snd (SecureUser.verify_identity now u)) = true <->
      status u <> UserIdentity.PENDING)
  /\ (raised (snd (SecureUser.update_email now m u)) = true <->
      UserIdentity.__validate_email m <> Return m).
Proof.
  split; [intros _; apply (call_raises_iff now (SecureUser.GrantPermission name) u)|].
  split; [now destruct (revoke_permission_delegates now name u) as (_ & _ & ->)|].
  split; [apply (call_raises_iff now SecureUser.RequestVerification u)|].
  split; [apply (call_raises_iff now SecureUser.VerifyIdentity u)|].
  apply (call_raises_iff now (SecureUser.UpdateEmail m) u).
Qed.

(** X13 at the account [alice] and the name [withdraw]. *)
Lemma X13_when_operations_raise_witness :
  raised (snd (SecureUser.grant_permission "t1" "withdraw" alice)) = true <->
  restricted "withdraw" /\ status alice <> UserIdentity.VERIFIED.
Proof.
  destruct (X13_when_operations_raise "t1" "withdraw" "alice@y.org" alice)
    as [Hgrant _].
  apply Hgrant. reflexivity.
Defined.

Lemma permissions_view_reads (u : Aliased.t) (σ : list Aliased.obj) :
  Aliased.permissions_view u σ = Aliased.list_items (Aliased.__permissions u) σ.
Proof.
  unfold Aliased.permissions_view, Aliased.get_permissions.
  rewrite list_copy_fresh. apply list_items_copy.
Qed.

Lemma read_entry_agree (σ σ' : list Aliased.obj) (v : Aliased.value) :
  (forall k, k < length σ -> σ' !! k = σ !! k) ->
  match v with Aliased.VRef k => k < length σ | _ => True end ->
  Aliased.read_entry σ' v = Aliased.read_entry σ v.
Proof.
  intros Hagree Hv. destruct v as [|s|k]; try reflexivity.
  unfold Aliased.read_entry, Aliased.dict_getitem, Aliased.dict_fields.
  now rewrite (Hagree k Hv).
Qed.

Lemma read_log_agree (σ σ' : list Aliased.obj) (l : nat) :
  (forall k, k < length σ -> σ' !! k = σ !! k) ->
  l < length σ ->
  refs_allocated (Aliased.list_items l σ) σ ->
  Aliased.read_log l σ' = Aliased.read_log l σ.
Proof.
  intros Hagree Hl Hrefs. unfold Aliased.read_log.
  assert (Aliased.list_items l σ' = Aliased.list_items l σ) as ->
    by (unfold Aliased.list_items; now rewrite Hagree).
  apply map_ext_Forall. unfold refs_allocated in Hrefs.
  rewrite Forall_forall in *. intros v Hv.
  apply read_entry_agree; [assumption | now apply Hrefs].
Qed.

(** What a later [get_audit_log] shows are the entries of the list the
    account holds. *)
Lemma audit_log_view_reads (u : Aliased.t) (σ : list Aliased.obj) :
  Aliased.__audit_log u < length σ ->
  refs_allocated (Aliased.list_items (Aliased.__audit_log u) σ) σ ->
  Aliased.audit_log_view u σ = Aliased.read_log (Aliased.__audit_log u) σ.
Proof.
  intros Hl Hrefs. unfold Aliased.audit_log_view, Aliased.get_audit_log.
  rewrite list_copy_fresh. unfold Aliased.read_log at 1.
  rewrite list_items_copy. apply map_ext_Forall.
  unfold refs_allocated in Hrefs. rewrite Forall_forall in *. intros v Hv.
  apply read_entry_agree; [|now apply Hrefs].
  intros k Hk. now apply lookup_app_l.
Qed.

(** X14.  The permission snapshots are independent.  The list
    [get_permissions] returns, and the dictionary [identity_status] returns
    with the list under its key [permissions], are new objects that show
    the permissions of the account; whatever a caller puts in their place,
    a later [get_permissions] shows the same permissions as before. *)
Theorem X14_permission_snapshots_independent (u : Aliased.t)
    (σ : list Aliased.obj) (o1 o2 : Aliased.obj) :
  lists_allocated u σ ->
  (let '(σ1, r) := Aliased.get_permissions u σ in
   Aliased.list_items r σ1 = Aliased.list_items (Aliased.__permissions u) σ
   /\ Aliased.permissions_view u (<[r := o1]> σ1) = Aliased.permissions_view u σ)
  /\ (let '(σ2, d) := Aliased.identity_status u σ in
      exists l,
        Aliased.dict_getitem d "permissions" σ2 = Some (Aliased.VRef l)
        /\ Aliased.list_items l σ2 = Aliased.list_items (Aliased.__permissions u) σ
        /\ Aliased.permissions_view u (<[d := o1]> (<[l := o2]> σ2)) =
           Aliased.permissions_view u σ).
Proof.
  intros Hall. split.
  - pose proof (permissions_view_independent u σ o1 Hall) as H.
    unfold Aliased.get_permissions in *. rewrite list_copy_fresh in *.
    split; [apply list_items_copy | exact H].
  - pose proof (identity_status_is_independent u σ o1 o2 Hall) as H.
    destruct (Aliased.identity_status u σ) as [σ2 d].
    destruct H as (-> & Hd & Hl & Hp & _). exists (length σ).
    split; [exact Hd|]. split; [exact Hl|].
    now rewrite !permissions_view_reads.
Qed.

(** X14 in a store that holds one permission and one audit entry. *)
Lemma X14_permission_snapshots_independent_witness :
  let σ := [Aliased.PyList [Aliased.VStr "VIEW"];
            Aliased.PyList [Aliased.VRef 2];
            Aliased.PyDict [("timestamp", Aliased.VStr "t0");
                            ("action", Aliased.VStr "SecureUser created");
                            ("details", Aliased.VStr "Username: alice")]] in
  let u := {| Aliased._identity := SecureUser._identity alice;
              Aliased.__permissions := 0;
              Aliased.__audit_log := 1 |} in
  (let '(σ1, r) := Aliased.get_permissions u σ in
   Aliased.list_items r σ1 = Aliased.list_items (Aliased.__permissions u) σ
   /\ Aliased.permissions_view u (<[r := Aliased.PyList [Aliased.VStr "FAKE_PERMISSION"]]> σ1)
      = Aliased.permissions_view u σ)
  /\ (let '(σ2, d) := Aliased.identity_status u σ in
      exists l,
        Aliased.dict_getitem d "permissions" σ2 = Some (Aliased.VRef l)
        /\ Aliased.list_items l σ2 = Aliased.list_items (Aliased.__permissions u) σ
        /\ Aliased.permissions_view u
             (<[d := Aliased.PyList [Aliased.VStr "FAKE_PERMISSION"]]>
                (<[l := Aliased.PyDict []]> σ2)) =
           Aliased.permissions_view u σ).
Proof.
  cbv zeta. apply X14_permission_snapshots_independent.
  split; eexists; reflexivity.
Defined.

(** X15.  The list [get_audit_log] returns is an object of its own.  It
    shows the entries of the account, and whatever a caller puts in its
    place (appending to it, clearing it, replacing its items), a later
    [get_audit_log] shows the same entries as before.  This is about the
    list only; the entries in it are those of the account. *)
Theorem X15_returned_log_list_independent (u : Aliased.t)
    (σ : list Aliased.obj) (o : Aliased.obj) :
  lists_allocated u σ ->
  refs_allocated (Aliased.list_items (Aliased.__audit_log u) σ) σ ->
  let '(σ1, r) := Aliased.get_audit_log u σ in
  Aliased.read_log r σ1 = Aliased.read_log (Aliased.__audit_log u) σ
  /\ Aliased.audit_log_view u (<[r := o]> σ1) = Aliased.audit_log_view u σ.
Proof.
  intros Hall Hrefs. pose proof Hall as [_ [ls Hl]].
  apply lookup_lt_Some in Hl.
  pose proof (audit_log_view_reads u σ Hl Hrefs) as Hview.
  unfold Aliased.get_audit_log. rewrite list_copy_fresh. split.
  - unfold Aliased.audit_log_view, Aliased.get_audit_log in Hview.
    rewrite list_copy_fresh in Hview. exact Hview.
  - set (σ' := <[length σ := o]>
                 (σ ++ [Aliased.PyList
                          (Aliased.list_items (Aliased.__audit_log u) σ)])%list).
    assert (forall k, k < length σ -> σ' !! k = σ !! k) as Hagree
      by (intros k Hk; now apply overwrite_last_keeps).
    assert (Aliased.list_items (Aliased.__audit_log u) σ' =
            Aliased.list_items (Aliased.__audit_log u) σ) as Hitems
      by (unfold Aliased.list_items; now rewrite Hagree).
    assert (length σ' = S (length σ)) as Hlen
      by (unfold σ'; rewrite length_insert, length_app; simpl; lia).
    rewrite Hview, (audit_log_view_reads u σ').
    + now apply read_log_agree.
    + lia.
    + rewrite Hitems. unfold refs_allocated in *. rewrite Forall_forall in *.
      intros v Hv. specialize (Hrefs v Hv). destruct v; auto. lia.
Qed.

(** X15 in a store that holds one permission and one audit entry, for a
    caller that empties the list it got. *)
Lemma X15_returned_log_list_independent_witness :
  let σ := [Aliased.PyList [Aliased.VStr "VIEW"];
            Aliased.PyList [Aliased.VRef 2];
            Aliased.PyDict [("timestamp", Aliased.VStr "t0");
                            ("action", Aliased.VStr "SecureUser created");
                            ("details", Aliased.VStr "Username: alice")]] in
  let u := {| Aliased._identity := SecureUser._identity alice;
              Aliased.__permissions := 0;
              Aliased.__audit_log := 1 |} in
  let '(σ1, r) := Aliased.get_audit_log u σ in
  Aliased.read_log r σ1 = Aliased.read_log (Aliased.__audit_log u) σ
  /\ Aliased.audit_log_view u (<[r := Aliased.PyList []]> σ1) =
     Aliased.audit_log_view u σ.
Proof.
  cbv zeta. apply X15_returned_log_list_independent.
  - split; eexists; reflexivity.
  - repeat constructor.
Defined.

(** X16.  The constructor checks the email first: when the validator
    rejects the email, the error raised names the email, whatever the phone
    number and the user name are. *)
Theorem X16_email_is_checked_first (now username email phone : string) :
  UserIdentity.__validate_email email <> Return email ->
  SecureUser.__init__ now username email phone =
    Raise {| kind := ValidationError;
             message := "Invalid email format: " ++ email |}.
Proof.
  intros Hv. unfold SecureUser.__init__, UserIdentity.__init__,
    UserIdentity.set_email. cbv zeta.
  destruct (validate_email_cases email) as [[_ He]|[_ He]]; [congruence|].
  now rewrite He.
Qed.

(** X16 at an invalid email given together with an invalid phone number. *)
Lemma X16_email_is_checked_first_witness :
  SecureUser.__init__ "t0" "jane_doe" "invalid.email" "123-456" =
    Raise {| kind := ValidationError;
             message := "Invalid email format: " ++ "invalid.email" |}.
Proof.
  apply X16_email_is_checked_first. vm_compute. discriminate.
Defined.

(** X17.  Whenever the email and the phone number pass their validators the
    constructor returns, for any user name (the user name is not looked at;
    the empty one is accepted).  The account then reports exactly the three
    strings given, the status [UNVERIFIED] and no permission, and its audit
    log holds the one entry of its creation. *)
Theorem X17_constructor_reports_given_fields (now username email phone : string) :
  UserIdentity.__validate_email email = Return email ->
  UserIdentity.__validate_phone phone = Return phone ->
  exists u,
    SecureUser.__init__ now username email phone = Return u
    /\ SecureUser.identity_status u =
       {| SecureUser.st_username := username;
          SecureUser.st_email := Some email;
          SecureUser.st_phone := Some phone;
          SecureUser.st_verification_status := UserIdentity.UNVERIFIED;
          SecureUser.st_permissions := [] |}
    /\ SecureUser.get_audit_log u =
       [{| SecureUser.timestamp := now;
           SecureUser.action := "SecureUser created";
           SecureUser.details := "Username: " ++ username |}].
Proof.
  intros He Hp. eexists. split.
  - apply account_init_returns. eexists. split; [|reflexivity].
    apply identity_init_returns. split; [exact He|]. split; [exact Hp | reflexivity].
  - split; reflexivity.
Qed.

(** X17 at the empty user name. *)
Lemma X17_constructor_reports_given_fields_witness :
  exists u,
    SecureUser.__init__ "t0" EmptyString "alice@x.com" "+1-555-000-0000" = Return u
    /\ SecureUser.identity_status u =
       {| SecureUser.st_username := EmptyString;
          SecureUser.st_email := Some "alice@x.com";
          SecureUser.st_phone := Some "+1-555-000-0000";
          SecureUser.st_verification_status := UserIdentity.UNVERIFIED;
          SecureUser.st_permissions := [] |}
    /\ SecureUser.get_audit_log u =
       [{| SecureUser.timestamp := "t0";
           SecureUser.action := "SecureUser created";
           SecureUser.details := "Username: " ++ EmptyString |}].
Proof.
  apply X17_constructor_reports_given_fields; vm_compute; reflexivity.
Defined.

(** X18.  A change of email that the validator accepts goes through:
    [update_email] returns, the account reports the new email and all its
    other fields and permissions as before, and the audit entry reads
    [Email updated] with the old and the new email. *)
Theorem X18_update_email_replaces_email (now m : string) (u : SecureUser.t) :
  UserIdentity.__validate_email m = Return m ->
  snd (SecureUser.update_email now m u) = Return tt
  /\ SecureUser.identity_status (fst (SecureUser.update_email now m u)) =
     {| SecureUser.st_username := SecureUser.st_username (SecureUser.identity_status u);
        SecureUser.st_email := Some m;
        SecureUser.st_phone := SecureUser.st_phone (SecureUser.identity_status u);
        SecureUser.st_verification_status :=
          SecureUser.st_verification_status (SecureUser.identity_status u);
        SecureUser.st_permissions :=
          SecureUser.st_permissions (SecureUser.identity_status u) |}
  /\ SecureUser.get_audit_log (fst (SecureUser.update_email now m u)) =
     (SecureUser.get_audit_log u
      ++ [{| SecureUser.timestamp := now;
             SecureUser.action := "Email updated";
             SecureUser.details :=
               str_opt (SecureUser.st_email (SecureUser.identity_status u))
               ++ " -> " ++ m |}])%list.
Proof.
  intros Hv. unfold SecureUser.update_email. cbv zeta.
  destruct (set_email_cases m (SecureUser._identity u))
    as [[_ ->]|(e & _ & He & _)]; [|congruence].
  simpl. auto.
Qed.

(** X18 at the account [alice]. *)
Lemma X18_update_email_replaces_email_witness :
  snd (SecureUser.update_email "t1" "alice@y.org" alice) = Return tt
  /\ SecureUser.identity_status (fst (SecureUser.update_email "t1" "alice@y.org" alice)) =
     {| SecureUser.st_username :=
          SecureUser.st_username (SecureUser.identity_status alice);
        SecureUser.st_email := Some "alice@y.org";
        SecureUser.st_phone := SecureUser.st_phone (SecureUser.identity_status alice);
        SecureUser.st_verification_status :=
          SecureUser.st_verification_status (SecureUser.identity_status alice);
        SecureUser.st_permissions :=
          SecureUser.st_permissions (SecureUser.identity_status alice) |}
  /\ SecureUser.get_audit_log (fst (SecureUser.update_email "t1" "alice@y.org" alice)) =
     (SecureUser.get_audit_log alice
      ++ [{| SecureUser.timestamp := "t1";
             SecureUser.action := "Email updated";
             SecureUser.details :=
               str_opt (SecureUser.st_email (SecureUser.identity_status alice))
               ++ " -> " ++ "alice@y.org" |}])%list.
Proof.
  apply X18_update_email_replaces_email. vm_compute. reflexivity.
Defined.

(** X19.  Failures are silent on the console: a call that raises prints
    nothing (it is recorded in the audit log and signalled by the
    exception only). *)
Theorem X19_failed_calls_print_nothing (now now' : string) (op : SecureUser.Op)
    (u : SecureUser.t) :
  raised (snd (SecureUser.call now' op u)) = true ->
  Console.call now op u = [].
Proof.
  rewrite call_raises_iff. destruct op as [p|p| | |m]; simpl.
  - intros [Hr Hs]. unfold Console.add_permission, status in *. cbv zeta.
    apply restricted_contains in Hr. rewrite Hr, (is_verified_false _ Hs).
    reflexivity.
  - tauto.
  - unfold status, UserIdentity.get_verification_status, Console.request_verification.
    now destruct (UserIdentity.__verification_status _).
  - unfold status, UserIdentity.get_verification_status, Console.verify.
    now destruct (UserIdentity.__verification_status _).
  - intros Hv. unfold Console.set_email.
    destruct (validate_email_cases m) as [[_ He]|[_ He]]; [congruence|].
    now rewrite He.
Qed.

(** X19 at the denied grant of [WITHDRAW] to the account [alice]. *)
Lemma X19_failed_calls_print_nothing_witness :
  Console.call "t1" (SecureUser.GrantPermission "WITHDRAW") alice = [].
Proof.
  apply (X19_failed_calls_print_nothing "t1" "t1"). vm_compute. reflexivity.
Defined.

(** X20.  What a call that returns prints, on every account built by the
    constructor and used through its operations.  For an ASCII name, a
    grant prints that the permission already exists exactly when it was
    held, and a revocation prints that the permission was not found exactly
    when it was not held; for every account, a
    request for verification, a verification and a change of email each
    print one line of [UserIdentity LOG] stamped with the clock reading.
    The constructor prints nothing. *)
Theorem X20_what_returning_calls_print (now now' : string) (op : SecureUser.Op)
    (u : SecureUser.t) :
  SecureUser.reachable u ->
  raised (snd (SecureUser.call now' op u)) = false ->
  match op with
  | SecureUser.GrantPermission p =>
      is_ascii p = true ->
      Console.call now op u =
        if AccountAccess.has_permission p (SecureUser.__access u)
        then ["Permission '" ++ upper p ++ "' already exists."] else []
  | SecureUser.RevokePermission p =>
      is_ascii p = true ->
      Console.call now op u =
        if AccountAccess.has_permission p (SecureUser.__access u)
        then [] else ["Permission '" ++ upper p ++ "' not found."]
  | _ =>
      exists message,
        Console.call now op u = ["[" ++ now ++ "] UserIdentity LOG: " ++ message]
  end
  /\ forall username email, Console.identity_init now username email = [].
Proof.
  intros Hu Hok. split.
  - apply not_true_iff_false in Hok. rewrite call_raises_iff in Hok.
    destruct op as [p|p| | |m]; simpl in *.
    + intros _.
      unfold Console.add_permission, AccountAccess.has_permission. cbv zeta.
      destruct (contains (upper p) AccountAccess.RESTRICTED_PERMISSIONS) eqn:Hr;
        [|simpl; now destruct (contains (upper p) (AccountAccess.__permissions _))].
      apply restricted_contains in Hr.
      destruct (UserIdentity.status_eqb _ _) eqn:Hs; simpl;
        [now destruct (contains (upper p) (AccountAccess.__permissions _))|].
      exfalso. apply Hok. split; [assumption|]. unfold status.
      intros Hv. apply status_eqb_eq in Hv. congruence.
    + intros _.
      unfold Console.remove_permission, AccountAccess.has_permission. cbv zeta.
      now destruct (contains (upper p) _).
    + unfold status, UserIdentity.get_verification_status,
        Console.request_verification, Console.__log_state_change in *.
      destruct (UserIdentity.__verification_status _); [eauto | exfalso..];
        apply Hok; discriminate.
    + unfold status, UserIdentity.get_verification_status,
        Console.verify, Console.__log_state_change in *.
      destruct (UserIdentity.__verification_status _); [exfalso | eauto | exfalso];
        apply Hok; discriminate.
    + unfold Console.set_email, Console.__log_state_change.
      destruct (validate_email_cases m) as [[_ He]|[_ He]];
        [|exfalso; apply Hok; congruence].
      rewrite He.
      destruct (reachable_identity_valid u Hu) as [(e & Hmail & _) _].
      unfold UserIdentity.get_email in Hmail. rewrite Hmail. eauto.
  - intros username email. unfold Console.identity_init, Console.set_email. simpl.
    now destruct (UserIdentity.__validate_email email).
Qed.

(** X20 at the account [alice]: a request for verification, and a second
    grant of [view]. *)
Lemma X20_what_returning_calls_print_witness :
  (exists message,
      Console.call "t1" SecureUser.RequestVerification alice =
        ["[" ++ "t1" ++ "] UserIdentity LOG: " ++ message])
  /\ Console.call "t2" (SecureUser.GrantPermission "view")
       (fst (SecureUser.call "t1" (SecureUser.GrantPermission "view") alice)) =
     ["Permission 'VIEW' already exists."].
Proof.
  split.
  - apply (X20_what_returning_calls_print "t1" "t1" SecureUser.RequestVerification
             alice); [apply alice_reachable | vm_compute; reflexivity].
  - destruct (X20_what_returning_calls_print "t2" "t2"
                (SecureUser.GrantPermission "view")
                (fst (SecureUser.call "t1" (SecureUser.GrantPermission "view") alice)))
      as [Hline _].
    + apply SecureUser.reachable_call, alice_reachable.
    + vm_compute. reflexivity.
    + rewrite (Hline eq_refl). vm_compute. reflexivity.
Defined.

(** X21.  Permissions are kept in the order in which they were granted:
    granting ASCII names that are new and pairwise different (after
    uppercasing), none of them refused, appends their uppercasings to the
    permission list one after the other. *)
Theorem X21_grants_append_in_order (names : list (string * string))
    (u : SecureUser.t) :
  Forall (fun tn => is_ascii (snd tn) = true) names ->
  status u = UserIdentity.VERIFIED
    \/ Forall (fun tn => ~ restricted (snd tn)) names ->
  NoDup (permissions u ++ map (fun tn => upper (snd tn)) names) ->
  permissions (SecureUser.call_all (grants names) u) =
    (permissions u ++ map (fun tn => upper (snd tn)) names)%list.
Proof.
  intros _. revert u.
  induction names as [|[t n] names IH]; intros u Hok Hnd; simpl.
  - now rewrite app_nil_r.
  - simpl in Hnd.
    assert (upper n ∉ permissions u) as Hfresh.
    { apply NoDup_app in Hnd as (_ & Hdisj & _). intros Hin.
      apply (Hdisj _ Hin). left. }
    destruct (grant_permission_delegates t n u) as (Hi & Ha & _).
    cbv zeta in Ha.
    assert (permissions (fst (SecureUser.grant_permission t n u)) =
            (permissions u ++ [upper n])%list) as Hp.
    { unfold permissions, AccountAccess.get_permissions in *. rewrite Ha.
      destruct (add_permission_cases n
                  (Some (UserIdentity.status_eqb (status u) UserIdentity.VERIFIED))
                  (SecureUser.__access u))
        as [(Hr & [= Hf] & _)|[(_ & _ & ->)|(_ & Hin & _)]];
        [|reflexivity | tauto].
      exfalso. destruct Hok as [Hs|Hall].
      - rewrite Hs in Hf. discriminate.
      - inversion Hall; subst. tauto. }
    rewrite IH.
    + rewrite Hp, <- app_assoc. reflexivity.
    + destruct Hok as [Hs|Hall].
      * left. now apply (call_keeps_verified t (SecureUser.GrantPermission n)).
      * right. now inversion Hall.
    + rewrite Hp, <- app_assoc. exact Hnd.
Qed.

(** X21 at the account [alice], granted [view], [edit] and [report]. *)
Lemma X21_grants_append_in_order_witness :
  permissions
    (SecureUser.call_all
       (grants [("t1", "view"); ("t2", "edit"); ("t3", "report")]) alice) =
    (permissions alice
     ++ map (fun tn => upper (snd tn)) [("t1", "view"); ("t2", "edit"); ("t3", "report")])%list.
Proof.
  apply X21_grants_append_in_order.
  - repeat constructor.
  - right. repeat constructor; intros [H|H]; vm_compute in H; discriminate H.
  - vm_compute. repeat constructor; rewrite ?elem_of_cons, ?elem_of_nil;
      intros H; repeat destruct H as [H|H]; try discriminate H; try exact H.
Defined.

End Extras.
